(** * analyze_benchmarks.py: a shallow embedding and its properties

    The script reads a benchmark CSV into a pandas DataFrame, renames its
    columns, coerces text cells to floats, aggregates per method, derives a
    95% confidence interval and writes a CSV, two plots, a markdown report
    and a LaTeX table.

    Conventions of the embedding:
    - text is [string] (headers and cells are taken to be ASCII, so that
      [str.lower] and [str.strip] are the ASCII ones);
    - a Python float is an IEEE 754 binary64 number, [spec_float] with
      [prec = 53] and [emax = 1024]; the missing value is NaN;
    - a DataFrame is the list of its columns, in order, duplicates allowed;
    - a run of [main] returns what it printed, the files it wrote and
      whether it returned or raised. *)

From Stdlib Require Import ZArith List String Ascii Bool Lia.
From Stdlib Require Import SpecFloat.
From Stdlib Require Import Sorting.Sorted Sorting.Permutation.
Import ListNotations.

Local Open Scope string_scope.
Local Open Scope Z_scope.

(* ================================================================= *)
(** ** Python text operations used by the script *)

Module PyStr.

(** [c.lower()] on one ASCII character. *)
Definition lower_char (c : ascii) : ascii :=
  let n := nat_of_ascii c in
  if ((65 <=? n) && (n <=? 90))%nat then ascii_of_nat (n + 32) else c.

(** [s.lower()]. *)
Fixpoint lower (s : string) : string :=
  match s with
  | EmptyString => EmptyString
  | String c t => String (lower_char c) (lower t)
  end.

(** The ASCII characters [str.strip()] removes: tab, line feed, vertical
    tab, form feed, carriage return, the four separators 28..31, space. *)
Definition is_space (c : ascii) : bool :=
  let n := nat_of_ascii c in
  (((9 <=? n) && (n <=? 13)) || ((28 <=? n) && (n <=? 32)))%nat.

Fixpoint lstrip (s : string) : string :=
  match s with
  | EmptyString => EmptyString
  | String c t => if is_space c then lstrip t else s
  end.

Fixpoint rstrip (s : string) : string :=
  match s with
  | EmptyString => EmptyString
  | String c t =>
      match rstrip t with
      | EmptyString => if is_space c then EmptyString else String c EmptyString
      | t' => String c t'
      end
  end.

(** [s.strip()]. *)
Definition strip (s : string) : string := rstrip (lstrip s).

(** [sub in s]. *)
Fixpoint contains (sub s : string) : bool :=
  String.prefix sub s ||
  match s with
  | EmptyString => false
  | String _ t => contains sub t
  end.

End PyStr.
Import PyStr.

(* ================================================================= *)
(** ** Column names: [canonicalize_columns] *)

(** The entry [colmap[c]] the loop of [canonicalize_columns] writes for the
    column name [c], [None] when no branch of the [if]/[elif] chain fires
    and the dictionary gets no entry. *)
Definition colmap (c : string) : option string :=
  let lc := lower c in
  if contains "method" lc then Some "Method"
  else if (contains "mean" lc && negb (contains "ci" lc)) || contains "avg" lc
       then Some "Mean_ms"
  else if contains "std" lc then Some "StdDev_ms"
  else if contains "ci" lc && contains "95" lc then Some "CI95_ms"
  else if contains "fallback" lc then Some "Fallback_pct"
  else if contains "accuracy" lc then Some "Accuracy_pct"
  else if contains "sample" lc || String.eqb (strip lc) "n" then Some "Samples"
  else if contains "input" lc && contains "len" lc then Some "InputLength"
  else if contains "min" lc then Some "Min_ms"
  else if contains "max" lc then Some "Max_ms"
  else None.

(** [{c: c.strip() for c in df.columns}], as the function it tabulates. *)
Definition cols (c : string) : option string := Some (strip c).

(** What a header of the CSV is called after [canonicalize_columns]: the
    first rename strips it, the second applies [colmap] to the stripped
    name and leaves a name without entry alone. *)
Definition rename_label (m : string -> option string) (c : string) : string :=
  match m c with Some c' => c' | None => c end.

Definition canonical_name (c : string) : string :=
  rename_label colmap (rename_label cols c).

(* ================================================================= *)
(** ** Python floats *)

Module F64.

Definition prec : Z := 53.
Definition emax : Z := 1024.

Definition float : Type := spec_float.

Definition nan : float := S754_nan.
Definition zero : float := S754_zero false.

(** [np.isnan(x)], [math.isinf(x)] and finiteness. *)
Definition is_nan (x : float) : bool :=
  match x with S754_nan => true | _ => false end.
Definition is_inf (x : float) : bool :=
  match x with S754_infinity _ => true | _ => false end.

Definition add : float -> float -> float := SFadd prec emax.
Definition sub : float -> float -> float := SFsub prec emax.
Definition mul : float -> float -> float := SFmul prec emax.
Definition div : float -> float -> float := SFdiv prec emax.
Definition sqrt : float -> float := SFsqrt prec emax.
Definition ltb : float -> float -> bool := SFltb.
Definition leb : float -> float -> bool := SFleb.

(** Identity of two floats as values of the type (NaN is one value). *)
Definition same (x y : float) : bool :=
  match x, y with
  | S754_zero s, S754_zero t => Bool.eqb s t
  | S754_infinity s, S754_infinity t => Bool.eqb s t
  | S754_nan, S754_nan => true
  | S754_finite s m e, S754_finite t n f =>
      Bool.eqb s t && Pos.eqb m n && Z.eqb e f
  | _, _ => false
  end.

(** [float(n)] for an integer [n]: the nearest float, ties to even. *)
Definition of_Z (n : Z) : float := binary_normalize prec emax n 0 false.

(** The float nearest to [(-1)^neg * m * 10^e10], ties to even: what
    [float(text)] returns for a decimal literal with digits [m] and
    decimal exponent [e10] (overflow gives an infinity, underflow a
    zero, the sign is kept on a zero). *)
Definition of_decimal (neg : bool) (m : Z) (e10 : Z) : float :=
  match m with
  | Zpos p =>
      if 0 <=? e10
      then binary_normalize prec emax
             ((if neg then Z.opp else fun z => z) (Zpos p * 10 ^ e10)) 0 false
      else div (S754_finite neg p 0)
               (S754_finite false (Z.to_pos (10 ^ (- e10))) 0)
  | _ => S754_zero neg
  end.

(** [int(x)]: truncation towards zero; [None] where Python raises
    ([ValueError] on NaN, [OverflowError] on an infinity). *)
Definition to_int (x : float) : option Z :=
  match x with
  | S754_zero _ => Some 0
  | S754_finite s m e =>
      let a := if 0 <=? e then Z.shiftl (Zpos m) e else Z.shiftr (Zpos m) (- e) in
      Some (if s then - a else a)
  | _ => None
  end.

End F64.

(* ================================================================= *)
(** ** The pattern [num_re] and [extract_number] *)

Module Re.

(** The fragment of Python's regular expressions [num_re] is written in:
    a character class, concatenation, a greedy option, and the greedy
    repetitions of a class. *)
Inductive re : Type :=
| Cls (p : ascii -> bool)
| Cat (r1 r2 : re)
| Opt (r : re)
| Star (p : ascii -> bool)
| Plus (p : ascii -> bool).

(** Greedy repetition with backtracking: take one more character of the
    class when the rest of the pattern then matches, else stop here. *)
Fixpoint star (p : ascii -> bool) (s : string)
         (k : string -> option string) : option string :=
  match s with
  | String c t =>
      if p c then
        match star p t k with
        | Some r => Some r
        | None => k s
        end
      else k s
  | EmptyString => k s
  end.

(** [run r s k]: match [r] at the start of [s], then the rest of the
    pattern [k] on what is left; the result is the text left after the
    whole match, [None] when no way of matching succeeds. Alternatives
    are tried in the order of a backtracking matcher. *)
Fixpoint run (r : re) (s : string) (k : string -> option string)
  : option string :=
  match r with
  | Cls p =>
      match s with
      | String c t => if p c then k t else None
      | EmptyString => None
      end
  | Cat r1 r2 => run r1 s (fun s' => run r2 s' k)
  | Opt r1 =>
      match run r1 s k with
      | Some x => Some x
      | None => k s
      end
  | Star p => star p s k
  | Plus p =>
      match s with
      | String c t => if p c then star p t k else None
      | EmptyString => None
      end
  end.

(** [r.match(s)]: the matched text, a prefix of [s]. *)
Definition match_at (r : re) (s : string) : option string :=
  match run r s (fun rest => Some rest) with
  | Some rest => Some (substring 0 (String.length s - String.length rest) s)
  | None => None
  end.

(** [r.search(s)]: the match at the leftmost position that has one. *)
Fixpoint search (r : re) (s : string) : option string :=
  match match_at r s with
  | Some m => Some m
  | None =>
      match s with
      | String _ t => search r t
      | EmptyString => None
      end
  end.

End Re.

Definition is_digit (c : ascii) : bool :=
  let n := nat_of_ascii c in ((48 <=? n) && (n <=? 57))%nat.
Definition is_sign (c : ascii) : bool :=
  Ascii.eqb c "+" || Ascii.eqb c "-".
Definition is_dot (c : ascii) : bool := Ascii.eqb c ".".
Definition is_e (c : ascii) : bool := Ascii.eqb c "e" || Ascii.eqb c "E".

(** [num_re = re.compile(r"[+-]?\d*\.?\d+(?:[eE][+-]?\d+)?")]. *)
Definition num_re : Re.re :=
  Re.Cat (Re.Opt (Re.Cls is_sign))
    (Re.Cat (Re.Star is_digit)
       (Re.Cat (Re.Opt (Re.Cls is_dot))
          (Re.Cat (Re.Plus is_digit)
             (Re.Opt (Re.Cat (Re.Cls is_e)
                        (Re.Cat (Re.Opt (Re.Cls is_sign)) (Re.Plus is_digit))))))).

(** *** [float(text)] on decimal literals *)

(** Reads a run of digits: the number they add to [acc], how many there
    are, and the text after them. *)
Fixpoint read_digits (acc : Z) (n : Z) (s : string) : Z * Z * string :=
  match s with
  | String c t =>
      if is_digit c
      then read_digits (10 * acc + Z.of_nat (nat_of_ascii c - 48)) (n + 1) t
      else (acc, n, s)
  | EmptyString => (acc, n, s)
  end.

Definition read_sign (s : string) : bool * string :=
  match s with
  | String c t =>
      if Ascii.eqb c "-" then (true, t)
      else if Ascii.eqb c "+" then (false, t)
      else (false, s)
  | EmptyString => (false, s)
  end.

(** [float(text)] for a decimal literal: sign, digits, an optional
    fraction, an optional exponent; [None] stands for the [ValueError] of
    a text that is not such a literal. *)
Definition float_of_literal (text : string) : option F64.float :=
  let '(neg, s1) := read_sign text in
  let '(ip, ni, s2) := read_digits 0 0 s1 in
  let '(m, nf, s3) :=
    match s2 with
    | String c t => if is_dot c then read_digits ip 0 t else (ip, 0, s2)
    | EmptyString => (ip, 0, s2)
    end in
  if (ni + nf =? 0) then None
  else
    match s3 with
    | EmptyString => Some (F64.of_decimal neg m (- nf))
    | String c t =>
        if is_e c then
          let '(eneg, s4) := read_sign t in
          let '(ex, ne, s5) := read_digits 0 0 s4 in
          match s5 with
          | EmptyString =>
              if ne =? 0 then None
              else Some (F64.of_decimal neg m ((if eneg then - ex else ex) - nf))
          | _ => None
          end
        else None
    end.

(** *** [str(x)] on numbers *)

Definition digit_char (d : Z) : ascii := ascii_of_nat (48 + Z.to_nat d).

Fixpoint digits_from (fuel : nat) (n : Z) (acc : string) : string :=
  match fuel with
  | O => acc
  | S f =>
      let acc' := String (digit_char (n mod 10)) acc in
      if n / 10 =? 0 then acc' else digits_from f (n / 10) acc'
  end.

(** The decimal digits of [n >= 0], most significant first. *)
Definition str_nat (n : Z) : string :=
  digits_from (S (Z.to_nat (Z.log2 n))) n "".

(** [str(n)] for a Python integer. *)
Definition str_int (n : Z) : string :=
  if n <? 0 then String "-" (str_nat (- n)) else str_nat n.

Fixpoint zeros (n : nat) : string :=
  match n with O => "" | S k => String "0" (zeros k) end.

(** Drops the trailing zeros of a digit string. *)
Fixpoint rstrip_zeros (s : string) : string :=
  match s with
  | EmptyString => EmptyString
  | String c t =>
      match rstrip_zeros t with
      | EmptyString => if Ascii.eqb c "0" then EmptyString else String c EmptyString
      | t' => String c t'
      end
  end.

(** [repr] of a finite positive float [m * 2^e] prints the shortest digit
    string that [float] reads back as the same float (the closest to the
    float among the shortest); the float is held as the fraction
    [num / den]. *)
Section ShortestDigits.
Variables (x : F64.float) (num den : Z).

(** [num / den < 10^p]. *)
Definition below_pow10 (p : Z) : bool :=
  if 0 <=? p then num <? den * 10 ^ p else num * 10 ^ (- p) <? den.

Fixpoint first_pow10 (fuel : nat) (p : Z) : Z :=
  match fuel with
  | O => p
  | S f => if below_pow10 p then p else first_pow10 f (p + 1)
  end.

(** The position of the decimal point: the [p] with
    [10^(p-1) <= num/den < 10^p]. *)
Definition decpt : Z :=
  let b := Z.log2 num - Z.log2 den in
  first_pow10 8 ((b * 30103) / 100000 - 2).

(** The two integers around [num/den / 10^s], the nearer one first (on a
    tie the even one). *)
Definition neighbours (s : Z) : Z * Z :=
  let n := if 0 <=? s then num else num * 10 ^ (- s) in
  let d := if 0 <=? s then den * 10 ^ s else den in
  let lo := n / d in
  let r := n mod d in
  match 2 * r ?= d with
  | Lt => (lo, lo + 1)
  | Gt => (lo + 1, lo)
  | Eq => if Z.even lo then (lo, lo + 1) else (lo + 1, lo)
  end.

Definition reads_back (c s : Z) : bool := F64.same (F64.of_decimal false c s) x.

(** Tries [k], [k+1], ... significant digits; the result is the integer
    of the digits and its decimal exponent. *)
Fixpoint shortest (fuel : nat) (k : Z) : Z * Z :=
  let s := decpt - k in
  let '(c1, c2) := neighbours s in
  match fuel with
  | O => (c1, s)
  | S f =>
      if reads_back c1 s then (c1, s)
      else if reads_back c2 s then (c2, s)
      else shortest f (k + 1)
  end.
End ShortestDigits.

(** The two notations of [repr]: [int_part.frac_part], and
    [d[.rest]e+ex] or [d[.rest]e-ex]. *)
Inductive notation : Type :=
| Fixed (int_part frac_part : string)
| Scientific (d : ascii) (rest : string) (eneg : bool) (ex : string).

Definition print_notation (n : notation) : string :=
  match n with
  | Fixed ip fp => ip ++ String "." fp
  | Scientific d rest eneg ex =>
      String d (match rest with
                | EmptyString => EmptyString
                | _ => String "." rest
                end)
      ++ String "e" (String (if eneg then "-"%char else "+"%char) ex)
  end.

(** [repr] writes the digits [ds], with the decimal point after the first
    [pt] of them, in fixed notation when [-4 < pt <= 16] and else in
    scientific notation with at least two exponent digits. *)
Definition choose_notation (ds : string) (pt : Z) : notation :=
  if (pt <=? -4) || (16 <? pt) then
    match ds with
    | String d rest =>
        let e10 := pt - 1 in
        let ex := str_nat (Z.abs e10) in
        Scientific d rest (e10 <? 0)
                   (if Z.abs e10 <? 10 then String "0" ex else ex)
    | EmptyString => Fixed "0" "0"
    end
  else if pt <=? 0 then Fixed "0" (zeros (Z.to_nat (- pt)) ++ ds)
  else if Z.of_nat (String.length ds) <=? pt
       then Fixed (ds ++ zeros (Z.to_nat pt - String.length ds)) "0"
  else Fixed (substring 0 (Z.to_nat pt) ds)
             (substring (Z.to_nat pt) (String.length ds - Z.to_nat pt) ds).

(** [str(x)] (and [repr(x)]) for a float. *)
Definition str_float (x : F64.float) : string :=
  match x with
  | S754_nan => "nan"
  | S754_infinity s => if s then "-inf" else "inf"
  | S754_zero s => if s then "-0.0" else "0.0"
  | S754_finite s m e =>
      let num := if 0 <=? e then Zpos m * 2 ^ e else Zpos m in
      let den := if 0 <=? e then 1 else 2 ^ (- e) in
      let ax := S754_finite false m e in
      let '(c, s10) := shortest ax num den 16 1 in
      let all := str_nat c in
      let ds := match rstrip_zeros all with
                | EmptyString => "0"
                | ds => ds
                end in
      (if s then "-" else "") ++
      print_notation (choose_notation ds (s10 + Z.of_nat (String.length all)))
  end.

(* ================================================================= *)
(** ** Cells and [extract_number] *)

(** What a cell of a DataFrame holds: a text, a float (NaN is the missing
    cell) or, after [fillna] with an integer no float represents, a Python
    integer. A column read by [read_csv] holds floats when every cell is a
    number or empty (an integer column by its values) and texts with NaN
    for the empty cells otherwise. *)
Inductive value : Type :=
| VStr (s : string)
| VFloat (x : F64.float)
| VInt (n : Z).

Definition missing : value := VFloat F64.nan.

(** [pd.isna(v)]. *)
Definition isna (v : value) : bool :=
  match v with VFloat x => F64.is_nan x | _ => false end.

(** [str(v)]. *)
Definition py_str (v : value) : string :=
  match v with
  | VStr s => s
  | VFloat x => str_float x
  | VInt n => str_int n
  end.

Definition extract_number (s : value) : F64.float :=
  if isna s then F64.nan
  else
    let s := py_str s in
    match Re.search num_re s with
    | Some m =>
        match float_of_literal m with
        | Some x => x
        | None => F64.nan
        end
    | None => F64.nan
    end.

(* ================================================================= *)
(** ** Exceptions and effects *)

Inductive exn : Type :=
| KeyError | ValueError | AttributeError | TypeError | OverflowError.

(** A computation that returns or raises. *)
Definition result (A : Type) : Type := (exn + A)%type.

Definition ok {A} (a : A) : result A := inr a.
Definition raise {A} (e : exn) : result A := inl e.

Definition rbind {A B} (c : result A) (k : A -> result B) : result B :=
  match c with
  | inl e => inl e
  | inr a => k a
  end.

Fixpoint mapM {A B} (f : A -> result B) (l : list A) : result (list B) :=
  match l with
  | [] => ok []
  | a :: t =>
      rbind (f a) (fun b => rbind (mapM f t) (fun bs => ok (b :: bs)))
  end.

(* ================================================================= *)
(** ** DataFrames *)

(** A DataFrame: the column labels in order (pandas allows a label twice)
    and the rows, each with one cell per column. *)
Record DataFrame : Type := {
  columns : list string;
  rows : list (list value)
}.

(** [c in df.columns]. *)
Definition has_column (c : string) (df : DataFrame) : bool :=
  existsb (String.eqb c) (columns df).

Fixpoint positions_from (i : nat) (c : string) (l : list string) : list nat :=
  match l with
  | [] => []
  | h :: t =>
      if String.eqb c h then i :: positions_from (S i) c t
      else positions_from (S i) c t
  end.

(** Where the label [c] occurs among the columns. *)
Definition positions (c : string) (df : DataFrame) : list nat :=
  positions_from 0 c (columns df).

Definition cell (j : nat) (r : list value) : value := nth j r missing.

(** The cells of column number [j]. *)
Definition column_at (j : nat) (df : DataFrame) : list value :=
  map (cell j) (rows df).

(** [df[c]]: a Series when the label occurs once, a DataFrame when it
    occurs several times, [KeyError] when it does not occur. *)
Inductive selection : Type :=
| NoSuchColumn
| Series (j : nat) (cells : list value)
| SubFrame.

Definition getitem (df : DataFrame) (c : string) : selection :=
  match positions c df with
  | [] => NoSuchColumn
  | [j] => Series j (column_at j df)
  | _ => SubFrame
  end.

Fixpoint set_nth (j : nat) (v : value) (r : list value) : list value :=
  match j, r with
  | O, _ :: t => v :: t
  | S k, h :: t => h :: set_nth k v t
  | _, [] => []
  end.

(** [df[c] = df[c].apply(f)] for the column number [j]. *)
Definition map_column (j : nat) (f : value -> value) (df : DataFrame)
  : DataFrame :=
  {| columns := columns df;
     rows := map (fun r => set_nth j (f (cell j r)) r) (rows df) |}.

(** [df.rename(columns=m)]. *)
Definition rename (m : string -> option string) (df : DataFrame) : DataFrame :=
  {| columns := map (rename_label m) (columns df); rows := rows df |}.

Definition canonicalize_columns (df : DataFrame) : DataFrame :=
  let df := rename cols df in
  rename colmap df.

(** The dtype of a column is [object] when it holds a text. *)
Definition is_text (v : value) : bool :=
  match v with VStr _ => true | _ => false end.
Definition dtype_is_object (cells : list value) : bool := existsb is_text cells.

(** The loop of [clean_numeric_columns] over [list(df.columns)]. When two
    columns carry the label [col] (two headers renamed to one canonical
    name), [df[col]] is a DataFrame and [df[col].dtype] raises
    [AttributeError] ('DataFrame' object has no attribute 'dtype'). *)
Fixpoint clean_loop (labels : list string) (df : DataFrame) : result DataFrame :=
  match labels with
  | [] => ok df
  | col :: rest =>
      if String.eqb col "Method" then clean_loop rest df
      else
        match getitem df col with
        | Series j cells =>
            if dtype_is_object cells
            then clean_loop rest (map_column j (fun v => VFloat (extract_number v)) df)
            else clean_loop rest df
        | SubFrame => raise AttributeError
        | NoSuchColumn => raise KeyError
        end
  end.

Definition clean_numeric_columns (df : DataFrame) : result DataFrame :=
  clean_loop (columns df) df.

(* ================================================================= *)
(** ** [compute_ci95] *)

(** The literal [1.96]. *)
Definition f1_96 : F64.float :=
  Eval vm_compute in F64.of_decimal false 196 (-2).

(** [np.sqrt(n)] for a Python integer [n > 0]: numpy converts an integer
    below [2^64] to a float, and raises [TypeError] on a larger one (it
    becomes an object, which has no sqrt method). *)
Definition np_sqrt_int (n : Z) : result F64.float :=
  if n <? 2 ^ 64 then ok (F64.sqrt (F64.of_Z n)) else raise TypeError.

Definition compute_ci95 (std : F64.float) (n : Z) : result F64.float :=
  if F64.is_nan std || (n <=? 0) then ok F64.nan
  else rbind (np_sqrt_int n) (fun r => ok (F64.div (F64.mul f1_96 std) r)).

(* ================================================================= *)
(** ** Python [sorted] *)

(** [sorted] is stable: an element goes after those that compare below
    it and before the first that does not. [lt a b] is [key(a) < key(b)]. *)
Section Sorted.
Context {A : Type} (lt : A -> A -> bool).

Fixpoint insert_sorted (x : A) (l : list A) : list A :=
  match l with
  | [] => [x]
  | y :: t => if lt y x then y :: insert_sorted x t else x :: y :: t
  end.

Definition py_sorted (l : list A) : list A :=
  fold_right insert_sorted [] l.
End Sorted.

(* ================================================================= *)
(** ** [find_latest_csv] *)

Record file_stat : Type := { path : string; st_mtime : Z }.

(** The file system as the script sees it: [rglob_csv p] lists the
    [*.csv] files under the directory [p] ([None] when [p] does not
    exist), [read_csv f] is the table [pd.read_csv(f)] returns or the
    exception it raises. Modification times are compared as integers. *)
Record world : Type := {
  rglob_csv : string -> option (list file_stat);
  read_csv : string -> result DataFrame
}.

Definition find_latest_csv (w : world) (search_paths : list string)
  : option string :=
  let files :=
    flat_map (fun p => match rglob_csv w p with
                       | None => []
                       | Some fs => fs
                       end) search_paths in
  match files with
  | [] => None
  | _ =>
      (* reverse=True: descending keys, equal keys in their first order *)
      let files_sorted :=
        py_sorted (fun f g => st_mtime g <? st_mtime f) files in
      match files_sorted with
      | f :: _ => Some (path f)
      | [] => None
      end
  end.

(* ================================================================= *)
(** ** Aggregation: [df.groupby('Method', as_index=False).agg({...})] *)

Inductive how : Type :=
| Mean          (* 'mean' *)
| Max           (* 'max' *)
| First         (* 'first' *)
| LambdaNan.    (* lambda x: np.nan *)

(** The cells of a numeric column as floats; a text cell makes the
    numeric aggregation raise. *)
Definition as_float (v : value) : result F64.float :=
  match v with
  | VFloat x => ok x
  | VInt n => ok (F64.of_Z n)
  | VStr _ => raise TypeError
  end.

(** One step of the compensated summation of pandas' group mean. *)
Definition kahan_step (acc : F64.float * F64.float) (val : F64.float)
  : F64.float * F64.float :=
  let '(sumx, compensation) := acc in
  let y := F64.sub val compensation in
  let t := F64.add sumx y in
  let c := F64.sub (F64.sub t sumx) y in
  (t, if F64.is_nan c then F64.zero else c).

(** ['mean'] over the cells of a group: missing cells are skipped, a group
    with no observation gives NaN. *)
Definition group_mean (xs : list F64.float) : F64.float :=
  let obs := filter (fun x => negb (F64.is_nan x)) xs in
  match obs with
  | [] => F64.nan
  | _ =>
      F64.div (fst (fold_left kahan_step obs (F64.zero, F64.zero)))
              (F64.of_Z (Z.of_nat (List.length obs)))
  end.

(** ['max'] over the cells of a group, missing cells skipped. *)
Definition group_max (xs : list F64.float) : F64.float :=
  let obs := filter (fun x => negb (F64.is_nan x)) xs in
  match obs with
  | [] => F64.nan
  | x :: t => fold_left (fun m v => if F64.ltb m v then v else m) t x
  end.

(** ['first']: the first cell of the group that is not missing. *)
Definition group_first (cells : list value) : value :=
  match filter (fun v => negb (isna v)) cells with
  | [] => missing
  | v :: _ => v
  end.

Definition aggregate (h : how) (cells : list value) : result value :=
  match h with
  | Mean => rbind (mapM as_float cells) (fun xs => ok (VFloat (group_mean xs)))
  | Max => rbind (mapM as_float cells) (fun xs => ok (VFloat (group_max xs)))
  | First => ok (group_first cells)
  | LambdaNan => ok missing
  end.

(** Group keys compare as texts or as numbers; a column read by
    [read_csv] holds one kind or the other, the mixed cases are there for
    totality. *)
Definition key_eqb (a b : value) : bool :=
  match a, b with
  | VStr s, VStr t => String.eqb s t
  | VFloat x, VFloat y => SFeqb x y
  | VInt m, VInt n => Z.eqb m n
  | _, _ => false
  end.

Definition key_ltb (a b : value) : bool :=
  match a, b with
  | VStr s, VStr t => String.ltb s t
  | VFloat x, VFloat y => F64.ltb x y
  | VInt m, VInt n => Z.ltb m n
  | VStr _, _ => false
  | _, VStr _ => true
  | VFloat _, VInt _ => true
  | VInt _, VFloat _ => false
  end.

Fixpoint insert_key (k : value) (ks : list value) : list value :=
  match ks with
  | [] => [k]
  | h :: t =>
      if key_eqb k h then ks
      else if key_ltb k h then k :: ks
      else h :: insert_key k t
  end.

(** The keys of the groups: the distinct values of the column that are
    not missing ([dropna=True]), in ascending order ([sort=True]). *)
Definition group_keys (cells : list value) : list value :=
  fold_left (fun ks k => if isna k then ks else insert_key k ks) cells [].

(** [df.groupby(key, as_index=False).agg(spec)]. [groupby] raises
    [KeyError] when [key] is no column and [ValueError] when it labels
    several (the grouper is not 1-dimensional). [agg] with a dictionary
    first checks its keys against the columns and raises [KeyError]
    (Column(s) [...] do not exist) when one is absent, whatever function
    the dictionary gives for it. The result has the column [key], then the
    keys of the dictionary, and one row per group. *)
Definition groupby_agg (df : DataFrame) (key : string)
           (spec : list (string * how)) : result DataFrame :=
  match getitem df key with
  | NoSuchColumn => raise KeyError
  | SubFrame => raise ValueError
  | Series jm keys =>
      if forallb (fun p => has_column (fst p) df) spec then
        rbind (mapM (fun p : string * how =>
                       match getitem df (fst p) with
                       | Series j _ => ok (j, snd p)
                       | _ => raise ValueError
                       end) spec) (fun js =>
        rbind (mapM (fun k =>
                 let grp := filter (fun r => key_eqb (cell jm r) k) (rows df) in
                 rbind (mapM (fun jh : nat * how =>
                                aggregate (snd jh) (map (cell (fst jh)) grp)) js)
                       (fun vs => ok (k :: vs)))
               (group_keys keys)) (fun rs =>
        ok {| columns := key :: map fst spec; rows := rs |}))
      else raise KeyError
  end.

(* ================================================================= *)
(** ** What a run does: printed lines and written files *)

(** A row of [summary_rows], the dictionaries the renderers receive. *)
Module Row.
Record t : Type := {
  Method : value;
  Mean_ms : F64.float;
  StdDev_ms : F64.float;
  CI95_ms : F64.float;
  Fallback_pct : F64.float;
  Accuracy_pct : F64.float;
  Samples : Z
}.
End Row.

Inductive plot : Type := runtime_plot | scaling_plot.

(** The files of a run, each with the data its content is made from
    (the naming by [csv_path.stem] and the text layout are not modelled). *)
Inductive artifact : Type :=
| cleaned_csv (summary : DataFrame)              (* summary.to_csv *)
| runtime_comparison_png (df_plot : list Row.t)  (* generate_bar_chart *)
| runtime_scaling_png (df_detailed : DataFrame)  (* generate_scaling_plot *)
| md_out (summary_table : list Row.t) (plots : list plot)  (* render_markdown *)
| tex_out (summary_table : list Row.t).          (* latex_table *)

(** The lines [main] prints. *)
Inductive message : Type :=
| NoCsvFound          (* 'No CSV found under data/ or experiments/. ...' *)
| UsingCsv (csv_path : string)                   (* 'Using CSV:' *)
| MissingMethod       (* 'CSV missing Method column; aborting' *)
| SkippingScaling     (* '... Runtime_ms column missing; skipping scaling plot' *)
| Generated.          (* 'Generated:' and the four lines after it *)

Inductive event : Type :=
| Print (m : message)
| Mkdir (dir : string)
| WriteFile (a : artifact).

(** A step of [main]: it extends the trace of events and returns or
    raises; an exception leaves the trace as it was when it was raised. *)
Definition M (A : Type) : Type := list event -> list event * result A.

Definition ret {A} (a : A) : M A := fun tr => (tr, ok a).

Definition bind {A B} (c : M A) (k : A -> M B) : M B :=
  fun tr =>
    match c tr with
    | (tr', inr a) => k a tr'
    | (tr', inl e) => (tr', inl e)
    end.

Definition emit (e : event) : M unit := fun tr => ((tr ++ [e])%list, ok tt).

Definition lift {A} (r : result A) : M A := fun tr => (tr, r).

Declare Scope py_scope.
Delimit Scope py_scope with py.
Notation "x <- c ;; k" := (bind c (fun x => k))
  (at level 61, c at next level, right associativity) : py_scope.
Notation "c ;;; k" := (bind c (fun _ => k))
  (at level 61, right associativity) : py_scope.
Notation "x <~ c ;; k" := (rbind c (fun x => k))
  (at level 61, c at next level, right associativity) : py_scope.

Local Open Scope py_scope.

(* ================================================================= *)
(** ** [main] *)

Record args : Type := {
  csv : option string;      (* --csv *)
  outdir : string;          (* --outdir *)
  assume_n : Z              (* --assume-n *)
}.

(** The defaults of the argument parser. *)
Definition default_args : args :=
  {| csv := None; outdir := "experiments"; assume_n := 30 |}.

(** [r[c]] for a row [r] of the frame [df]. *)
Definition item (df : DataFrame) (r : list value) (c : string) : result value :=
  match positions c df with
  | [] => raise KeyError
  | j :: _ => ok (cell j r)
  end.

(** [r.get(c, default)]. *)
Definition row_get (df : DataFrame) (r : list value) (c : string)
           (default : value) : value :=
  match positions c df with
  | [] => default
  | j :: _ => cell j r
  end.

(** [np.isnan(v)]: numpy refuses a text and an integer beyond 64 bits. *)
Definition np_isnan (v : value) : result bool :=
  match v with
  | VFloat x => ok (F64.is_nan x)
  | VInt n => if (- 2 ^ 63 <=? n) && (n <? 2 ^ 64) then ok false else raise TypeError
  | VStr _ => raise TypeError
  end.

(** [int(v)] *)
Definition py_int (v : value) : result Z :=
  match v with
  | VInt n => ok n
  | VFloat x =>
      match F64.to_int x with
      | Some n => ok n
      | None => raise (if F64.is_nan x then ValueError else OverflowError)
      end
  | VStr _ => raise ValueError
  end.

(** [float(v)] for a numeric cell. *)
Definition py_float (v : value) : result F64.float :=
  match v with
  | VFloat x => ok x
  | VInt n => ok (F64.of_Z n)
  | VStr s => match float_of_literal s with Some x => ok x | None => raise ValueError end
  end.

(** The dictionary handed to [agg]. *)
Definition agg_spec (df : DataFrame) : list (string * how) :=
  [ ("Mean_ms", if has_column "Mean_ms" df then Mean else First);
    ("StdDev_ms", if has_column "StdDev_ms" df then Mean else LambdaNan);
    ("Fallback_pct", if has_column "Fallback_pct" df then Mean else LambdaNan);
    ("Accuracy_pct", if has_column "Accuracy_pct" df then Mean else LambdaNan);
    ("Samples", if has_column "Samples" df then Max else LambdaNan) ].

(** [summary[c] = np.nan] for a label the frame lacks. *)
Definition add_missing_column (c : string) (df : DataFrame) : DataFrame :=
  {| columns := (columns df ++ [c])%list;
     rows := map (fun r => (r ++ [missing])%list) (rows df) |}.

(** The loop "Ensure numeric columns exist". *)
Definition ensure_numeric_columns (summary : DataFrame) : DataFrame :=
  fold_left (fun s c => if has_column c s then s else add_missing_column c s)
            ["Mean_ms"; "StdDev_ms"; "Fallback_pct"; "Accuracy_pct"; "Samples"]
            summary.

(** A cell of [Series.fillna(n)] for an integer [n]: a missing cell takes
    the float [n] when that float is the integer, and the integer itself
    otherwise (the column then turns to dtype object). *)
Definition fillna_cell (n : Z) (v : value) : value :=
  if isna v then
    match F64.to_int (F64.of_Z n) with
    | Some n' => if n' =? n then VFloat (F64.of_Z n) else VInt n
    | None => VInt n
    end
  else v.

(** [summary['Samples'] = summary['Samples'].fillna(n)]. *)
Definition fill_samples (n : Z) (summary : DataFrame) : result DataFrame :=
  match getitem summary "Samples" with
  | Series j _ => ok (map_column j (fillna_cell n) summary)
  | NoSuchColumn => raise KeyError
  | SubFrame => raise ValueError
  end.

(** The function applied to every row at "Compute CI95 if missing". *)
Definition ci95_lambda (summary : DataFrame) (r : list value) : result value :=
  use_source <~ (if has_column "CI95_ms" summary
                 then (b <~ np_isnan (row_get summary r "CI95_ms" missing) ;;
                       ok (negb b))
                 else ok false) ;;
  if use_source then item summary r "CI95_ms"
  else
    std <~ item summary r "StdDev_ms" ;;
    smp <~ item summary r "Samples" ;;
    n <~ py_int smp ;;
    std <~ as_float std ;;
    ci <~ compute_ci95 std n ;;
    ok (VFloat ci).

(** [summary[c] = summary.apply(f, axis=1)]. On a frame without rows
    [apply] returns a copy of the frame instead of a Series, and the
    assignment raises [ValueError] (Cannot set a DataFrame with multiple
    columns to the single column). *)
Definition assign_rowwise (c : string) (f : list value -> result value)
           (df : DataFrame) : result DataFrame :=
  match rows df with
  | [] => raise ValueError
  | _ =>
      rs <~ mapM (fun r =>
                    v <~ f r ;;
                    ok (match positions c df with
                        | [] => (r ++ [v])%list
                        | j :: _ => set_nth j v r
                        end)) (rows df) ;;
      ok {| columns := if has_column c df then columns df
                       else (columns df ++ [c])%list;
            rows := rs |}
  end.

(** [float(row[c]) if not np.isnan(row[c]) else default]. *)
Definition float_or (summary : DataFrame) (row : list value) (c : string)
           (default : F64.float) : result F64.float :=
  v <~ item summary row c ;;
  b <~ np_isnan v ;;
  if negb b then py_float v else ok default.

Definition f100 : F64.float := Eval vm_compute in F64.of_Z 100.

(** The dictionary appended to [summary_rows] for one row of [summary]. *)
Definition summary_row (a : args) (summary : DataFrame) (row : list value)
  : result Row.t :=
  method <~ item summary row "Method" ;;
  mean <~ float_or summary row "Mean_ms" F64.zero ;;
  std <~ float_or summary row "StdDev_ms" F64.zero ;;
  ci <~ float_or summary row "CI95_ms" F64.zero ;;
  fb <~ float_or summary row "Fallback_pct" F64.zero ;;
  acc <~ float_or summary row "Accuracy_pct" f100 ;;
  smp <~ item summary row "Samples" ;;
  b <~ np_isnan smp ;;
  n <~ (if negb b then py_int smp else ok (assume_n a)) ;;
  ok {| Row.Method := method; Row.Mean_ms := mean; Row.StdDev_ms := std;
        Row.CI95_ms := ci; Row.Fallback_pct := fb; Row.Accuracy_pct := acc;
        Row.Samples := n |}.

(** [generate_scaling_plot]: [m.lower()] needs every method to be a text. *)
Definition generate_scaling_plot (df_detailed : DataFrame) : M unit :=
  match getitem df_detailed "Method" with
  | Series _ methods =>
      if forallb is_text methods
      then emit (WriteFile (runtime_scaling_png df_detailed))
      else lift (raise AttributeError)
  | NoSuchColumn => lift (raise KeyError)
  | SubFrame => lift (raise ValueError)
  end.

Definition search_paths : list string := ["data"; "experiments"].

Definition main (a : args) (w : world) : M unit :=
  let csv_path :=
    match csv a with
    | Some p => if String.eqb p "" then find_latest_csv w search_paths else Some p
    | None => find_latest_csv w search_paths
    end in
  match csv_path with
  | None => emit (Print NoCsvFound)
  | Some csv_path =>
      emit (Print (UsingCsv csv_path)) ;;;
      df <- lift (read_csv w csv_path) ;;
      let df := canonicalize_columns df in
      df <- lift (clean_numeric_columns df) ;;
      let detailed :=
        if has_column "InputLength" df && has_column "Runtime_ms" df
        then Some df else None in
      if negb (has_column "Method" df) then emit (Print MissingMethod)
      else
        summary <- lift (groupby_agg df "Method" (agg_spec df)) ;;
        let summary := ensure_numeric_columns summary in
        summary <- lift (fill_samples (assume_n a) summary) ;;
        summary <- lift (assign_rowwise "CI95_ms" (ci95_lambda summary) summary) ;;
        emit (Mkdir (outdir a ++ "/reports")) ;;;
        emit (Mkdir (outdir a ++ "/plots")) ;;;
        emit (WriteFile (cleaned_csv summary)) ;;;
        summary_rows <- lift (mapM (summary_row a summary) (rows summary)) ;;
        let summary_rows :=
          py_sorted (fun r1 r2 => F64.ltb (Row.Mean_ms r1) (Row.Mean_ms r2))
                    summary_rows in
        emit (WriteFile (runtime_comparison_png summary_rows)) ;;;
        plots <-
          match detailed with
          | Some detailed =>
              if negb (has_column "Runtime_ms" detailed)
              then emit (Print SkippingScaling) ;;; ret [runtime_plot]
              else generate_scaling_plot detailed ;;; ret [runtime_plot; scaling_plot]
          | None => ret [runtime_plot]
          end ;;
        emit (WriteFile (md_out summary_rows plots)) ;;;
        emit (WriteFile (tex_out summary_rows)) ;;;
        emit (Print Generated)
  end.

(** A whole run: the trace, and whether [main] returned or raised. *)
Definition run (a : args) (w : world) : list event * result unit :=
  main a w [].

(** The exit code of the process: 0 when [main] returns, 1 when an
    exception escapes it. *)
Definition exit_code (r : list event * result unit) : Z :=
  match snd r with inr _ => 0 | inl _ => 1 end.

Definition files_written (tr : list event) : list artifact :=
  flat_map (fun e => match e with WriteFile f => [f] | _ => [] end) tr.

(* ================================================================= *)
(** ** The column rules as ordered lists *)

(** An ordered rule list, evaluated in sequence: the first rule whose
    predicate holds of the lower-cased header gives the name. *)
Definition rule : Type := ((string -> bool) * string)%type.

Fixpoint first_match (rules : list rule) (lc : string) : option string :=
  match rules with
  | [] => None
  | (p, name) :: rest => if p lc then Some name else first_match rest lc
  end.

(** The rules in the order of the [if]/[elif] chain of the code. *)
Definition code_rules : list rule :=
  [ (contains "method", "Method");
    (fun lc => (contains "mean" lc && negb (contains "ci" lc)) || contains "avg" lc,
     "Mean_ms");
    (contains "std", "StdDev_ms");
    (fun lc => contains "ci" lc && contains "95" lc, "CI95_ms");
    (contains "fallback", "Fallback_pct");
    (contains "accuracy", "Accuracy_pct");
    (fun lc => contains "sample" lc || String.eqb (strip lc) "n", "Samples");
    (fun lc => contains "input" lc && contains "len" lc, "InputLength");
    (contains "min", "Min_ms");
    (contains "max", "Max_ms") ].

(** The rules as the specification words them: substring tests, in the
    order mean/avg, std, ci and 95, fallback, accuracy, sample/n, input
    and len, min, max, method. *)
Definition spec_rules : list rule :=
  [ (fun lc => contains "mean" lc || contains "avg" lc, "Mean_ms");
    (contains "std", "StdDev_ms");
    (fun lc => contains "ci" lc && contains "95" lc, "CI95_ms");
    (contains "fallback", "Fallback_pct");
    (contains "accuracy", "Accuracy_pct");
    (fun lc => contains "sample" lc || contains "n" lc, "Samples");
    (fun lc => contains "input" lc && contains "len" lc, "InputLength");
    (contains "min", "Min_ms");
    (contains "max", "Max_ms");
    (contains "method", "Method") ].

(** The canonical name according to the specification's wording. *)
Definition spec_canonical_name (h : string) : string :=
  match first_match spec_rules (lower h) with
  | Some name => name
  | None => h
  end.

(* ================================================================= *)
(** ** Definitions used by the statements, and example inputs *)

(** A text without white space. *)
Fixpoint solid (s : string) : bool :=
  match s with
  | EmptyString => true
  | String c t => negb (is_space c) && solid t
  end.

(** The file [main] reads: [--csv] when given (and not empty), else the
    latest CSV of the search paths. *)
Definition csv_path_of (a : args) (w : world) : option string :=
  match csv a with
  | Some p => if String.eqb p "" then find_latest_csv w search_paths else Some p
  | None => find_latest_csv w search_paths
  end.

(** The aggregation stage: from the cleaned table to [summary] with its
    CI95_ms column. *)
Definition aggregation (a : args) (df : DataFrame) : result DataFrame :=
  (s0 <~ groupby_agg df "Method" (agg_spec df) ;;
   s2 <~ fill_samples (assume_n a) (ensure_numeric_columns s0) ;;
   assign_rowwise "CI95_ms" (ci95_lambda s2) s2)%py.

(** The comparison of the sort key [lambda r: r['Mean_ms']]. *)
Definition by_mean (r1 r2 : Row.t) : bool :=
  F64.ltb (Row.Mean_ms r1) (Row.Mean_ms r2).

(** The events of a run up to the bar chart. *)
Definition head_events (a : args) (p : string) (summary : DataFrame)
           (sorted_rows : list Row.t) : list event :=
  [ Print (UsingCsv p); Mkdir (outdir a ++ "/reports");
    Mkdir (outdir a ++ "/plots"); WriteFile (cleaned_csv summary);
    WriteFile (runtime_comparison_png sorted_rows) ].

(** The events of the reports. *)
Definition tail_events (sorted_rows : list Row.t) (plots : list plot)
  : list event :=
  [ WriteFile (md_out sorted_rows plots); WriteFile (tex_out sorted_rows);
    Print Generated ].


(** A world in which every path reads as the table [df]. *)
Definition given (df : DataFrame) : world :=
  {| rglob_csv := fun _ => None; read_csv := fun _ => inr df |}.

(** The arguments [--csv report.csv]. *)
Definition with_csv : args :=
  {| csv := Some "report.csv"; outdir := "experiments"; assume_n := 30 |}.


(** The columns of the frame [agg] returns: the key and the keys of the
    dictionary. *)
Definition summary_columns : list string :=
  ["Method"; "Mean_ms"; "StdDev_ms"; "Fallback_pct"; "Accuracy_pct"; "Samples"].

(** A row of that frame: the key and five floats. *)
Definition agg_row (r : list value) : Prop :=
  exists k m sd fb ac mx,
    r = [k; VFloat m; VFloat sd; VFloat fb; VFloat ac; VFloat mx].

(** The columns of [summary] once CI95_ms is assigned. *)
Definition summary_columns7 : list string :=
  (summary_columns ++ ["CI95_ms"])%list.

(** A row of [summary]: the sample count is filled, and the last cell is
    what [compute_ci95] returns for the row. *)
Definition summary_shape (a : args) (r : list value) : Prop :=
  exists k m sd fb ac mx n ci,
    r = [k; VFloat m; VFloat sd; VFloat fb; VFloat ac;
         fillna_cell (assume_n a) (VFloat mx); VFloat ci] /\
    py_int (fillna_cell (assume_n a) (VFloat mx)) = inr n /\
    compute_ci95 sd n = inr ci.

(** A row after [fillna], before CI95_ms is assigned. *)
Definition filled_shape (a : args) (r : list value) : Prop :=
  exists k m sd fb ac mx,
    r = [k; VFloat m; VFloat sd; VFloat fb; VFloat ac;
         fillna_cell (assume_n a) (VFloat mx)].

(** [x if not np.isnan(x) else default]. *)
Definition or_default (default x : F64.float) : F64.float :=
  if F64.is_nan x then default else x.

(** Ascending order of the means. *)
Definition mean_le (r1 r2 : Row.t) : Prop :=
  F64.leb (Row.Mean_ms r1) (Row.Mean_ms r2) = true.

(** The mean of a rendered row is a number. *)
Definition has_mean (r : Row.t) : Prop := F64.is_nan (Row.Mean_ms r) = false.

(** A numeric cell, written as its text. *)
Definition num (text : string) : value := VFloat (extract_number (VStr text)).

(** A table with every column the aggregation names and a CI95 column;
    the Mean column holds texts, one of them without a number. *)
Definition benchmark : DataFrame :=
  {| columns := ["Method"; "Mean (ms)"; "Std"; "CI95"; "Fallback %";
                 "Accuracy"; "Samples"];
     rows :=
       [ [VStr "Hybrid"; VStr "2.0"; num "1"; num "0.5"; num "0"; missing; missing];
         [VStr "Regex"; VStr "1 ms"; num "1"; num "0.5"; num "0"; num "99.5"; num "4"];
         [VStr "DFA"; VStr "n/a"; missing; num "0.5"; missing; num "100"; num "0"] ] |}.


(** How a row of [summary] is rendered: a missing number by its default,
    the sample count as an integer. [mx] is the aggregated sample count
    before [fillna]. *)
Definition rendered_with_defaults (a : args) (summary : DataFrame)
           (row : list value) (r : Row.t) : Prop :=
  exists m sd ci fb ac mx,
    item summary row "Mean_ms" = inr (VFloat m) /\
    Row.Mean_ms r = or_default F64.zero m /\
    item summary row "StdDev_ms" = inr (VFloat sd) /\
    Row.StdDev_ms r = or_default F64.zero sd /\
    item summary row "CI95_ms" = inr (VFloat ci) /\
    Row.CI95_ms r = or_default F64.zero ci /\
    item summary row "Fallback_pct" = inr (VFloat fb) /\
    Row.Fallback_pct r = or_default F64.zero fb /\
    item summary row "Accuracy_pct" = inr (VFloat ac) /\
    Row.Accuracy_pct r = or_default f100 ac /\
    item summary row "Samples" = inr (fillna_cell (assume_n a) (VFloat mx)) /\
    (F64.is_nan mx = true -> Row.Samples r = assume_n a) /\
    (F64.is_nan mx = false -> F64.to_int mx = Some (Row.Samples r)).

(** The summary a run writes to the CSV file. *)
Definition summary_of (a : args) (w : world) : DataFrame :=
  match files_written (fst (run a w)) with
  | cleaned_csv s :: _ => s
  | _ => {| columns := []; rows := [] |}
  end.

(** The rows a run hands to the LaTeX table. *)
Definition rendered_of (a : args) (w : world) : list Row.t :=
  flat_map (fun f => match f with tex_out rws => rws | _ => [] end)
           (files_written (fst (run a w))).

Definition benchmark_summary : DataFrame :=
  Eval vm_compute in summary_of with_csv (given benchmark).

Definition benchmark_rendered : list Row.t :=
  Eval vm_compute in rendered_of with_csv (given benchmark).

(** A table with a Method column only, and the table of the worked
    example: Method, Mean_ms and StdDev_ms. *)
Definition method_only : DataFrame :=
  {| columns := ["Method"]; rows := [[VStr "Regex"]; [VStr "DFA"]] |}.

Definition worked_example : DataFrame :=
  {| columns := ["Method"; "Mean_ms"; "StdDev_ms"];
     rows := [ [VStr "Regex"; VStr "5.2 ms"; num "0.3"];
               [VStr "DFA"; VStr "8.1"; num "0.1"] ] |}.

(** A table of per-sample rows: two measurements of Regex, with the
    columns the aggregation names and InputLength and Runtime_ms. *)
Definition detailed_table : DataFrame :=
  {| columns := ["Method"; "Mean_ms"; "StdDev_ms"; "Fallback_pct";
                 "Accuracy_pct"; "Samples"; "InputLength"; "Runtime_ms"];
     rows :=
       [ [VStr "Regex"; num "1"; num "0"; num "0"; num "100"; num "1";
          num "10"; num "1"];
         [VStr "Regex"; num "3"; num "0"; num "0"; num "100"; num "1";
          num "100"; num "3"] ] |}.

Definition detailed_rendered : list Row.t :=
  Eval vm_compute in rendered_of with_csv (given detailed_table).





(** The pattern after its sign, after its first digits, after its dot,
    and its exponent group. *)
Definition r_exp : Re.re :=
  Re.Opt (Re.Cat (Re.Cls is_e)
            (Re.Cat (Re.Opt (Re.Cls is_sign)) (Re.Plus is_digit))).
Definition r_frac : Re.re := Re.Cat (Re.Plus is_digit) r_exp.
Definition r_dot : Re.re := Re.Cat (Re.Opt (Re.Cls is_dot)) r_frac.
Definition r_int : Re.re := Re.Cat (Re.Star is_digit) r_dot.

(** The text after a run of digits: empty, or starting with a character
    that is no digit. *)
Definition stops (rest : string) : Prop :=
  match rest with
  | EmptyString => True
  | String c _ => is_digit c = false
  end.




(** A text that holds no digit. *)
Fixpoint no_digit (s : string) : bool :=
  match s with
  | EmptyString => true
  | String c t => negb (is_digit c) && no_digit t
  end.

(* ================================================================= *)
(** ** Definitions used by the properties of the stages *)

(** The files the scan of [find_latest_csv] collects, in scan order. *)
Definition scanned (w : world) (paths : list string) : list file_stat :=
  flat_map (fun p => match rglob_csv w p with
                     | None => []
                     | Some fs => fs
                     end) paths.

(** The comparison of [sorted(..., key=st_mtime, reverse=True)]. *)
Definition newer_first (f g : file_stat) : bool := st_mtime g <? st_mtime f.

(** Two directories: data/ holds a.csv (time 5) and b.csv (time 9),
    experiments/ holds c.csv (time 9). *)
Definition two_directories : world :=
  {| rglob_csv := fun p =>
       if String.eqb p "data"
       then Some [ {| path := "data/a.csv"; st_mtime := 5 |};
                   {| path := "data/b.csv"; st_mtime := 9 |} ]
       else if String.eqb p "experiments"
       then Some [ {| path := "experiments/c.csv"; st_mtime := 9 |} ]
       else None;
     read_csv := fun _ => inl ValueError |}.

(** The names the chain can give. *)
Definition canonical_names : list string :=
  ["Method"; "Mean_ms"; "StdDev_ms"; "CI95_ms"; "Fallback_pct";
   "Accuracy_pct"; "Samples"; "InputLength"; "Min_ms"; "Max_ms"].


(** What cleaning makes of the cells of one column. *)
Definition clean_column (cells : list value) : list value :=
  if dtype_is_object cells
  then map (fun v => VFloat (extract_number v)) cells
  else cells.

(** A table with a header to strip and a text column of runtimes. *)
Definition messy : DataFrame :=
  {| columns := [" method "; "Mean (ms)"; "Samples"];
     rows := [ [VStr "Regex"; VStr "5.2 ms"; VFloat (F64.of_Z 30)];
               [VStr "DFA"; VStr "n/a"; VFloat (F64.of_Z 30)] ] |}.

(** Every character of the text is in the class. *)
Fixpoint all_in (p : ascii -> bool) (s : string) : bool :=
  match s with
  | EmptyString => true
  | String c t => p c && all_in p t
  end.

(** The texts a pattern of the fragment matches. *)
Inductive lang : Re.re -> string -> Prop :=
| lang_cls (p : ascii -> bool) (c : ascii) :
    p c = true -> lang (Re.Cls p) (String c "")
| lang_cat (r1 r2 : Re.re) (s1 s2 : string) :
    lang r1 s1 -> lang r2 s2 -> lang (Re.Cat r1 r2) (s1 ++ s2)
| lang_opt_skip (r : Re.re) : lang (Re.Opt r) ""
| lang_opt_take (r : Re.re) (s : string) : lang r s -> lang (Re.Opt r) s
| lang_star (p : ascii -> bool) (s : string) :
    all_in p s = true -> lang (Re.Star p) s
| lang_plus (p : ascii -> bool) (c : ascii) (s : string) :
    p c = true -> all_in p s = true -> lang (Re.Plus p) (String c s).

(** [float_of_literal] after the sign. *)
Definition literal_body (neg : bool) (s1 : string) : option F64.float :=
  let '(ip, ni, s2) := read_digits 0 0 s1 in
  let '(m, nf, s3) :=
    match s2 with
    | String c t => if is_dot c then read_digits ip 0 t else (ip, 0, s2)
    | EmptyString => (ip, 0, s2)
    end in
  if (ni + nf =? 0) then None
  else
    match s3 with
    | EmptyString => Some (F64.of_decimal neg m (- nf))
    | String c t =>
        if is_e c then
          let '(eneg, s4) := read_sign t in
          let '(ex, ne, s5) := read_digits 0 0 s4 in
          match s5 with
          | EmptyString =>
              if ne =? 0 then None
              else Some (F64.of_decimal neg m ((if eneg then - ex else ex) - nf))
          | _ => None
          end
        else None
    end.

(** The exponent part of a match: nothing, or [e], a sign or none, and
    digits. *)
Definition exp_group : Re.re :=
  Re.Opt (Re.Cat (Re.Cls is_e)
            (Re.Cat (Re.Opt (Re.Cls is_sign)) (Re.Plus is_digit))).




(** The order of the group keys. *)
Definition key_lt (a b : value) : Prop := key_ltb a b = true.

(** The keys from an accumulator, as [group_keys] folds them. *)
Definition keys_from (acc cells : list value) : list value :=
  fold_left (fun ks k => if isna k then ks else insert_key k ks) cells acc.

(** A table with the columns of the aggregation and no row, as
    [read_csv] returns for a file with a header line only. *)
Definition header_only : DataFrame :=
  {| columns := summary_columns; rows := [] |}.

(** The cleaned form of [benchmark]. *)
Definition benchmark_cleaned : DataFrame :=
  Eval vm_compute in
    match clean_numeric_columns (canonicalize_columns benchmark) with
    | inr df => df
    | inl _ => benchmark
    end.







(* ================================================================= *)
(** * Properties *)

(** ** Text lemmas *)

Section TextLemmas.

Lemma is_space_lower_char (c : ascii) : is_space (lower_char c) = is_space c.
Proof. destruct c as [[] [] [] [] [] [] [] []]; reflexivity. Qed.

Lemma lower_lstrip (s : string) : lower (lstrip s) = lstrip (lower s).
Proof.
  induction s as [|c t IH]; simpl; [reflexivity|].
  rewrite is_space_lower_char.
  destruct (is_space c); [exact IH | reflexivity].
Qed.

Lemma lower_rstrip (s : string) : lower (rstrip s) = rstrip (lower s).
Proof.
  induction s as [|c t IH]; simpl; [reflexivity|].
  rewrite <- IH, is_space_lower_char.
  destruct (rstrip t); simpl; [destruct (is_space c)|]; reflexivity.
Qed.

Lemma lower_strip (s : string) : lower (strip s) = strip (lower s).
Proof. unfold strip. now rewrite lower_rstrip, lower_lstrip. Qed.

Lemma prefix_nil (s : string) : String.prefix "" s = true.
Proof. destruct s; reflexivity. Qed.

Lemma prefix_rstrip (s sub : string) :
  solid sub = true -> String.prefix sub (rstrip s) = String.prefix sub s.
Proof.
  revert sub. induction s as [|c t IH]; intros sub Hs; [reflexivity|].
  destruct sub as [|a sub']; [now rewrite !prefix_nil|].
  simpl in Hs. apply andb_prop in Hs. destruct Hs as [Ha Hs'].
  specialize (IH sub' Hs').
  simpl. destruct (rstrip t) as [|c' t'] eqn:Er.
  - destruct (is_space c) eqn:Ec.
    + simpl. destruct (ascii_dec a c) as [->|]; [|reflexivity].
      rewrite Ec in Ha. discriminate.
    + simpl. destruct (ascii_dec a c); [exact IH | reflexivity].
  - simpl. destruct (ascii_dec a c); [exact IH | reflexivity].
Qed.

Lemma contains_rstrip (s sub : string) :
  solid sub = true -> sub <> "" -> contains sub (rstrip s) = contains sub s.
Proof.
  intros Hs Hne. induction s as [|c t IH]; [reflexivity|].
  pose proof (prefix_rstrip (String c t) sub Hs) as P.
  simpl in P |- *. destruct (rstrip t) as [|c' t'] eqn:Er.
  - assert (Ht : contains sub t = false).
    { rewrite <- IH. destruct sub; [congruence | reflexivity]. }
    rewrite Ht, orb_false_r, <- P.
    destruct (is_space c); simpl.
    + destruct sub; [congruence | reflexivity].
    + destruct sub; [congruence|]. simpl. now rewrite orb_false_r.
  - rewrite <- IH, <- P. reflexivity.
Qed.

Lemma contains_lstrip (s sub : string) :
  solid sub = true -> sub <> "" -> contains sub (lstrip s) = contains sub s.
Proof.
  intros Hs Hne. induction s as [|c t IH]; [reflexivity|].
  simpl. destruct (is_space c) eqn:Ec; [|reflexivity].
  rewrite IH. destruct sub as [|a sub']; [congruence|].
  simpl in Hs |- *. destruct (ascii_dec a c) as [->|]; [|reflexivity].
  rewrite Ec in Hs. discriminate.
Qed.

(** Stripping a header does not change which solid keywords it holds. *)
Lemma contains_strip (s sub : string) :
  solid sub = true -> sub <> "" -> contains sub (strip s) = contains sub s.
Proof.
  intros Hs Hne. unfold strip.
  now rewrite contains_rstrip, contains_lstrip.
Qed.

Lemma contains_lower_strip (s sub : string) :
  solid sub = true -> sub <> "" ->
  contains sub (lower (strip s)) = contains sub (lower s).
Proof. intros. rewrite lower_strip. now apply contains_strip. Qed.

End TextLemmas.

(** ** Canonical column names *)

Lemma canonical_name_unfold (h : string) :
  canonical_name h =
  match colmap (strip h) with Some name => name | None => strip h end.
Proof. reflexivity. Qed.

Lemma colmap_first_match (c : string) :
  colmap c = first_match code_rules (lower c).
Proof.
  unfold colmap, code_rules, first_match.
  repeat match goal with
         | |- context [if ?b then _ else _] => destruct b; try reflexivity
         end.
Qed.

(** C4 (counterexample). The header "Mean CI" contains "mean" and is left
    as it is by the code, where the rules as worded give Mean_ms; the
    header "Method mean" becomes Method, where the worded order (mean
    before method) gives Mean_ms. *)
Lemma canonical_name_differs_from_spec_rules :
  contains "mean" (lower "Mean CI") = true /\
  canonical_name "Mean CI" = "Mean CI" /\
  spec_canonical_name "Mean CI" = "Mean_ms" /\
  canonical_name "Method mean" = "Method" /\
  spec_canonical_name "Method mean" = "Mean_ms".
Proof. repeat split; vm_compute; reflexivity. Qed.

(** C4 (amended). A header is stripped, lower-cased and run through the
    rules in the order of the code, first match wins: method; mean
    without ci, or avg; std; ci and 95; fallback; accuracy; sample, or the
    whole header being n; input and len; min; max. A header no rule
    matches keeps its stripped text. So a header containing "method"
    becomes Method, and one containing "mean" but neither "method" nor
    "ci" becomes Mean_ms. *)
Theorem canonical_name_first_match (h : string) :
  canonical_name h =
    match first_match code_rules (lower (strip h)) with
    | Some name => name
    | None => strip h
    end
  /\ (contains "method" (lower h) = true -> canonical_name h = "Method")
  /\ (contains "mean" (lower h) = true ->
      contains "method" (lower h) = false ->
      contains "ci" (lower h) = false ->
      canonical_name h = "Mean_ms").
Proof.
  rewrite canonical_name_unfold, colmap_first_match.
  split; [reflexivity|].
  assert (K : forall sub, solid sub = true -> sub <> "" ->
                          contains sub (lower (strip h)) = contains sub (lower h))
    by (intros; now apply contains_lower_strip).
  split.
  - intros Hm. cbn [first_match code_rules].
    rewrite (K "method"), Hm by (reflexivity || discriminate). reflexivity.
  - intros Hmean Hmeth Hci. cbn [first_match code_rules].
    rewrite (K "method"), (K "mean"), (K "ci"), Hmeth, Hmean, Hci
      by (reflexivity || discriminate).
    reflexivity.
Qed.

(** No branch of the chain writes the name Runtime_ms. *)
Lemma colmap_not_runtime (c name : string) :
  colmap c = Some name -> name <> "Runtime_ms".
Proof.
  unfold colmap.
  repeat match goal with
         | |- context [if ?b then _ else _] => destruct b
         end; intros H; inversion H; discriminate.
Qed.

Lemma canonical_name_runtime (h : string) :
  canonical_name h = "Runtime_ms" -> strip h = "Runtime_ms".
Proof.
  rewrite canonical_name_unfold.
  destruct (colmap (strip h)) as [name|] eqn:E; [|auto].
  intros ->. now apply colmap_not_runtime in E.
Qed.

(** ** The runs of [main] *)

(** Every run of [main], by cases. *)
Lemma run_unfold (a : args) (w : world) :
  run a w =
  match csv_path_of a w with
  | None => ([Print NoCsvFound], ok tt)
  | Some p =>
      match read_csv w p with
      | inl e => ([Print (UsingCsv p)], inl e)
      | inr df0 =>
          match clean_numeric_columns (canonicalize_columns df0) with
          | inl e => ([Print (UsingCsv p)], inl e)
          | inr df =>
              if has_column "Method" df then
                match aggregation a df with
                | inl e => ([Print (UsingCsv p)], inl e)
                | inr summary =>
                    match mapM (summary_row a summary) (rows summary) with
                    | inl e =>
                        ([Print (UsingCsv p); Mkdir (outdir a ++ "/reports");
                          Mkdir (outdir a ++ "/plots");
                          WriteFile (cleaned_csv summary)], inl e)
                    | inr summary_rows =>
                        let srt := py_sorted by_mean summary_rows in
                        let hd := head_events a p summary srt in
                        if has_column "InputLength" df && has_column "Runtime_ms" df
                        then
                          match getitem df "Method" with
                          | Series _ methods =>
                              if forallb is_text methods
                              then ((hd ++ WriteFile (runtime_scaling_png df)
                                        :: tail_events srt [runtime_plot; scaling_plot])%list,
                                    ok tt)
                              else (hd, inl AttributeError)
                          | NoSuchColumn => (hd, inl KeyError)
                          | SubFrame => (hd, inl ValueError)
                          end
                        else ((hd ++ tail_events srt [runtime_plot])%list, ok tt)
                    end
                end
              else ([Print (UsingCsv p); Print MissingMethod], ok tt)
          end
      end
  end.
Proof.
  unfold run, main, aggregation. fold (csv_path_of a w).
  cbv beta iota zeta delta [bind lift emit ret rbind].
  destruct (csv_path_of a w) as [p|]; [|reflexivity].
  destruct (read_csv w p) as [e|df0]; [reflexivity|].
  destruct (clean_numeric_columns (canonicalize_columns df0)) as [e|df];
    [reflexivity|].
  destruct (has_column "Method" df); [|reflexivity].
  destruct (groupby_agg df "Method" (agg_spec df)) as [e|s0]; [reflexivity|].
  destruct (fill_samples (assume_n a) (ensure_numeric_columns s0)) as [e|s2];
    [reflexivity|].
  destruct (assign_rowwise "CI95_ms" (ci95_lambda s2) s2) as [e|s3];
    [reflexivity|].
  destruct (mapM (summary_row a s3) (rows s3)) as [e|rws]; [reflexivity|].
  fold by_mean.
  destruct (has_column "InputLength" df); [|reflexivity].
  destruct (has_column "Runtime_ms" df) eqn:ER; [|reflexivity].
  cbn [andb]. rewrite ER. cbn [negb].
  unfold generate_scaling_plot, emit, lift.
  destruct (getitem df "Method") as [|j ms|]; try reflexivity.
  destruct (forallb is_text ms); reflexivity.
Qed.

(** ** Lemmas on frames *)

Lemma mapM_Forall2 {A B} (f : A -> result B) (l : list A) (l' : list B) :
  mapM f l = inr l' -> Forall2 (fun a b => f a = inr b) l l'.
Proof.
  revert l'. induction l as [|a t IH]; simpl; intros l' H.
  - inversion H. constructor.
  - unfold rbind, ok in H. destruct (f a) as [e|b] eqn:Ef; [discriminate|].
    destruct (mapM f t) as [e|bs]; [discriminate|].
    inversion H; subst. constructor; auto.
Qed.

Lemma Forall2_mapM {A B} (f : A -> result B) (l : list A) (l' : list B) :
  Forall2 (fun a b => f a = inr b) l l' -> mapM f l = inr l'.
Proof.
  induction 1 as [|a b t t' Hab _ IH]; simpl; [reflexivity|].
  unfold rbind, ok. now rewrite Hab, IH.
Qed.

Lemma has_column_In (c : string) (df : DataFrame) :
  has_column c df = true <-> In c (columns df).
Proof.
  unfold has_column. rewrite existsb_exists. split.
  - intros [x [Hx E]]. apply String.eqb_eq in E. now subst.
  - intros H. exists c. split; [assumption | apply String.eqb_refl].
Qed.

Lemma columns_canonicalize (df : DataFrame) :
  columns (canonicalize_columns df) = map canonical_name (columns df).
Proof. unfold canonicalize_columns, rename. simpl. now rewrite map_map. Qed.

Lemma clean_loop_columns (labels : list string) (df df' : DataFrame) :
  clean_loop labels df = inr df' -> columns df' = columns df.
Proof.
  revert df. induction labels as [|c t IH]; simpl; intros df H.
  - now inversion H.
  - destruct (String.eqb c "Method"); [now apply IH|].
    destruct (getitem df c) as [|j cells|]; try discriminate.
    destruct (dtype_is_object cells); apply IH in H; exact H.
Qed.

Lemma clean_columns (df df' : DataFrame) :
  clean_numeric_columns df = inr df' -> columns df' = columns df.
Proof. apply clean_loop_columns. Qed.

(** A header of the source table stands behind every column of the
    cleaned table. *)
Lemma cleaned_column_origin (df0 df : DataFrame) (c : string) :
  clean_numeric_columns (canonicalize_columns df0) = inr df ->
  has_column c df = true ->
  exists h, In h (columns df0) /\ canonical_name h = c.
Proof.
  intros Hc Hin. apply has_column_In in Hin.
  rewrite (clean_columns _ _ Hc), columns_canonicalize in Hin.
  apply in_map_iff in Hin. destruct Hin as [h [E Hh]]. now exists h.
Qed.

Ltac no_such_event H :=
  repeat match type of H with
         | In _ (_ :: _) => destruct H as [H|H]; [discriminate H|]
         | In _ (_ ++ _) => apply in_app_or in H; destruct H as [H|H]
         | In _ [] => destruct H
         | False => destruct H
         end.

(** ** The scaling plot and the name Runtime_ms *)

(** When a run writes the scaling plot, the cleaned table has the columns
    InputLength and Runtime_ms, and the plot receives that table. *)
Lemma scaling_plot_written (a : args) (w : world) (d : DataFrame) :
  In (WriteFile (runtime_scaling_png d)) (fst (run a w)) ->
  exists p df0,
    csv_path_of a w = Some p /\ read_csv w p = inr df0 /\
    clean_numeric_columns (canonicalize_columns df0) = inr d /\
    has_column "InputLength" d = true /\ has_column "Runtime_ms" d = true /\
    exists summary,
      aggregation a d = inr summary /\
      In (WriteFile (cleaned_csv summary)) (fst (run a w)).
Proof.
  rewrite run_unfold.
  destruct (csv_path_of a w) as [p|]; cbn [fst]; intros H; [|no_such_event H].
  destruct (read_csv w p) as [e|df0] eqn:Er; cbn [fst] in H |- *;
    [no_such_event H|].
  destruct (clean_numeric_columns (canonicalize_columns df0)) as [e|df] eqn:Ec;
    cbn [fst] in H |- *; [no_such_event H|].
  destruct (has_column "Method" df); cbn [fst] in H |- *; [|no_such_event H].
  destruct (aggregation a df) as [e|summary] eqn:Eagg;
    cbn [fst] in H |- *; [no_such_event H|].
  destruct (mapM (summary_row a summary) (rows summary)) as [e|rws];
    cbn [fst] in H |- *; [no_such_event H|].
  cbv zeta in H |- *.
  destruct (has_column "InputLength" df) eqn:EI;
    [destruct (has_column "Runtime_ms" df) eqn:ER|]; cbn [andb fst] in H |- *.
  - destruct (getitem df "Method") as [|j ms|]; cbn [fst] in H |- *.
    + unfold head_events in H. no_such_event H.
    + destruct (forallb is_text ms); cbn [fst] in H |- *;
        unfold head_events, tail_events in H |- *.
      * apply in_app_or in H. destruct H as [H|H]; [no_such_event H|].
        destruct H as [H|H]; [|no_such_event H].
        inversion H; subst d.
        exists p, df0. do 5 (split; [reflexivity || assumption|]).
        exists summary. split; [assumption|].
        apply in_or_app. left. simpl. tauto.
      * no_such_event H.
    + unfold head_events in H. no_such_event H.
  - unfold head_events, tail_events in H. no_such_event H.
  - unfold head_events, tail_events in H. no_such_event H.
Qed.

(** C10. A header whose stripped text is not Runtime_ms is never renamed
    to Runtime_ms, and a run that writes the scaling plot read a table
    with a header whose stripped text is Runtime_ms. *)
Theorem runtime_ms_only_from_literal_header (h : string) :
  strip h <> "Runtime_ms" ->
  canonical_name h <> "Runtime_ms" /\
  (forall a w d,
      In (WriteFile (runtime_scaling_png d)) (fst (run a w)) ->
      exists p df0 c,
        csv_path_of a w = Some p /\ read_csv w p = inr df0 /\
        In c (columns df0) /\ strip c = "Runtime_ms").
Proof.
  intros Hh. split.
  - intros E. apply Hh. now apply canonical_name_runtime.
  - intros a w d H.
    destruct (scaling_plot_written a w d H)
      as [p [df0 [Ep [Er [Ec [_ [ER _]]]]]]].
    destruct (cleaned_column_origin df0 d "Runtime_ms" Ec ER) as [c [Hc E]].
    exists p, df0, c. do 3 (split; [assumption|]).
    now apply canonical_name_runtime.
Qed.

(** C10 (witness): the header "Runtime(ms)". *)
Lemma runtime_ms_only_from_literal_header_witness :
  canonical_name "Runtime(ms)" <> "Runtime_ms" /\
  (forall a w d,
      In (WriteFile (runtime_scaling_png d)) (fst (run a w)) ->
      exists p df0 c,
        csv_path_of a w = Some p /\ read_csv w p = inr df0 /\
        In c (columns df0) /\ strip c = "Runtime_ms").
Proof.
  apply (runtime_ms_only_from_literal_header "Runtime(ms)").
  vm_compute. discriminate.
Defined.

(** ** Early returns *)





(** No CSV is found when every search path is missing or holds none. *)
Lemma find_latest_csv_none (w : world) (paths : list string) :
  (forall p, In p paths -> rglob_csv w p = None \/ rglob_csv w p = Some []) ->
  find_latest_csv w paths = None.
Proof.
  intros H. unfold find_latest_csv.
  assert (E : flat_map (fun p => match rglob_csv w p with
                                 | None => []
                                 | Some fs => fs
                                 end) paths = []).
  { induction paths as [|p t IH]; [reflexivity|]. simpl.
    rewrite IH by (intros q Hq; apply H; now right).
    destruct (H p (or_introl eq_refl)) as [-> | ->]; reflexivity. }
  now rewrite E.
Qed.




(** ** The shape of the summary *)

Lemma aggregate_float (h : how) (cells : list value) (v : value) :
  h = Mean \/ h = Max -> aggregate h cells = inr v -> exists x, v = VFloat x.
Proof.
  intros [-> | ->]; simpl; unfold rbind, ok;
    destruct (mapM as_float cells); try discriminate;
    intros H; inversion H; eauto.
Qed.

Lemma Forall2_Forall_r {A B} (R : A -> B -> Prop) (P : B -> Prop)
      (l : list A) (l' : list B) :
  Forall2 R l l' -> (forall a b, R a b -> P b) -> Forall P l'.
Proof. induction 1; intros HP; constructor; eauto. Qed.

Lemma Forall2_Forall_lr {A B} (R : A -> B -> Prop) (P : A -> Prop)
      (Q : B -> Prop) (l : list A) (l' : list B) :
  Forall P l -> Forall2 R l l' -> (forall a b, P a -> R a b -> Q b) ->
  Forall Q l'.
Proof.
  intros HP HR. revert HP. induction HR; intros HP HQ; constructor;
    inversion HP; subst; eauto.
Qed.

(** Looks up the labels of a frame whose columns are known. *)
Ltac compute_labels :=
  repeat match goal with
         | |- context [positions ?c {| columns := ?cs; rows := ?rs |}] =>
             let p := eval vm_compute in (positions_from 0 c cs) in
             change (positions c {| columns := cs; rows := rs |}) with p
         | |- context [has_column ?c {| columns := ?cs; rows := ?rs |}] =>
             let b := eval vm_compute in (existsb (String.eqb c) cs) in
             change (has_column c {| columns := cs; rows := rs |}) with b
         end.

Lemma groupby_agg_shape (df s0 : DataFrame) :
  groupby_agg df "Method" (agg_spec df) = inr s0 ->
  columns s0 = summary_columns /\ Forall agg_row (rows s0).
Proof.
  unfold groupby_agg.
  destruct (getitem df "Method") as [|jm keys|]; try discriminate.
  destruct (forallb _ (agg_spec df)) eqn:F; [|discriminate].
  unfold agg_spec in F |- *. cbn [forallb fst] in F.
  repeat (apply andb_prop in F; destruct F as [?H F]).
  repeat match goal with
         | H : has_column _ df = true |- _ => rewrite H; clear H
         end.
  cbn [mapM fst snd].
  repeat match goal with
         | |- context [getitem df ?c] =>
             destruct (getitem df c) as [|? ?|]; try discriminate
         end.
  unfold rbind at 1 2 3 4 5 6 7 8 9 10 11. cbn [ok].
  match goal with |- context [mapM ?f (group_keys keys)] =>
    destruct (mapM f (group_keys keys)) as [e|rs] eqn:Em end;
    [discriminate|].
  intros H. inversion H; subst s0; clear H. split; [reflexivity|]. cbn [rows].
  apply mapM_Forall2 in Em.
  eapply Forall2_Forall_r; [exact Em|]. clear Em.
  intros k row. cbn [mapM fst snd]. unfold rbind, ok.
  repeat match goal with
         | |- context [aggregate ?h ?c] =>
             let E := fresh "E" in
             destruct (aggregate h c) as [?|?v] eqn:E; [discriminate|];
             apply aggregate_float in E; [destruct E as [? ->]|tauto]
         end.
  intros H. inversion H. unfold agg_row. eauto 10.
Qed.

(** On the frame [agg] returns, "Ensure numeric columns exist" adds
    nothing. *)
Lemma ensure_id (rs : list (list value)) :
  ensure_numeric_columns {| columns := summary_columns; rows := rs |}
  = {| columns := summary_columns; rows := rs |}.
Proof. reflexivity. Qed.

(** On a filled row the function of "Compute CI95 if missing" takes the
    branch of [compute_ci95]: [summary] has no CI95_ms column. *)
Lemma ci95_lambda_filled (a : args) (rs : list (list value))
      (r v : list value) :
  filled_shape a r ->
  let summary := {| columns := summary_columns; rows := rs |} in
  (v' <~ ci95_lambda summary r ;;
   ok (match positions "CI95_ms" summary with
       | [] => (r ++ [v'])%list
       | j :: _ => set_nth j v' r
       end)) = inr v ->
  summary_shape a v.
Proof.
  intros [k [m [sd [fb [ac [mx ->]]]]]]. cbv zeta.
  unfold ci95_lambda, item. compute_labels.
  cbn [rbind ok cell nth as_float].
  destruct (py_int (fillna_cell (assume_n a) (VFloat mx))) as [e|n] eqn:En;
    [discriminate|].
  cbn [rbind]. destruct (compute_ci95 sd n) as [e|ci] eqn:Eci; [discriminate|].
  cbn [rbind ok app]. intros H. inversion H. unfold summary_shape.
  exists k, m, sd, fb, ac, mx, n, ci. auto.
Qed.

Lemma aggregation_shape (a : args) (df s : DataFrame) :
  aggregation a df = inr s ->
  columns s = summary_columns7 /\
  Forall (summary_shape a) (rows s) /\ rows s <> [].
Proof.
  unfold aggregation. unfold rbind at 1.
  destruct (groupby_agg df "Method" (agg_spec df)) as [e|s0] eqn:Eg;
    [discriminate|].
  apply groupby_agg_shape in Eg. destruct Eg as [Hc Hr].
  destruct s0 as [cs rs]. cbn [columns rows] in Hc, Hr. subst cs.
  rewrite ensure_id.
  unfold fill_samples, getitem. compute_labels.
  cbn [rbind ok]. unfold map_column. cbn [columns rows].
  set (rs2 := map _ rs).
  assert (H2 : Forall (filled_shape a) rs2).
  { subst rs2. apply Forall_map. eapply Forall_impl; [|exact Hr].
    intros r [k [m [sd [fb [ac [mx ->]]]]]]. cbn.
    unfold filled_shape. eauto 10. }
  clearbody rs2. clear Hr rs.
  unfold assign_rowwise. cbn [rows columns].
  destruct rs2 as [|r0 rs2]; [discriminate|].
  compute_labels. cbv iota.
  match goal with |- context [mapM ?f (r0 :: rs2)] =>
    destruct (mapM f (r0 :: rs2)) as [e|rs3] eqn:Em end; [discriminate|].
  cbn [rbind ok]. intros H. inversion H; subst s; clear H. cbn [columns rows].
  apply mapM_Forall2 in Em.
  split; [reflexivity|]. split.
  - eapply Forall2_Forall_lr; [exact H2 | exact Em |].
    intros r v Hr Hv. cbv beta in Hv. eapply ci95_lambda_filled; eauto.
  - inversion Em. discriminate.
Qed.

(** ** Rendered rows *)

Lemma fillna_cell_not_nan (n : Z) (mx : F64.float) (b : bool) :
  np_isnan (fillna_cell n (VFloat mx)) = inr b -> b = false.
Proof.
  unfold fillna_cell. cbn [isna].
  destruct (F64.is_nan mx) eqn:Em.
  - destruct (F64.to_int (F64.of_Z n)) as [n'|] eqn:Ei.
    + destruct (n' =? n).
      * cbn [np_isnan]. destruct (F64.of_Z n); cbn in Ei |- *;
          intros H; inversion H; try reflexivity; discriminate.
      * cbn [np_isnan]. destruct (_ && _); intros H; inversion H; reflexivity.
    + cbn [np_isnan]. destruct (_ && _); intros H; inversion H; reflexivity.
  - cbn [np_isnan]. intros H; inversion H. congruence.
Qed.

Lemma summary_row_shape (a : args) (rs : list (list value)) (r : list value)
      (row : Row.t) :
  summary_shape a r ->
  summary_row a {| columns := summary_columns7; rows := rs |} r = inr row ->
  exists k m sd fb ac mx n ci,
    r = [k; VFloat m; VFloat sd; VFloat fb; VFloat ac;
         fillna_cell (assume_n a) (VFloat mx); VFloat ci] /\
    py_int (fillna_cell (assume_n a) (VFloat mx)) = inr n /\
    compute_ci95 sd n = inr ci /\
    row = {| Row.Method := k;
             Row.Mean_ms := or_default F64.zero m;
             Row.StdDev_ms := or_default F64.zero sd;
             Row.CI95_ms := or_default F64.zero ci;
             Row.Fallback_pct := or_default F64.zero fb;
             Row.Accuracy_pct := or_default f100 ac;
             Row.Samples := n |}.
Proof.
  intros [k [m [sd [fb [ac [mx [n [ci [-> [Hn Hci]]]]]]]]]].
  unfold summary_row, float_or, item.
  set (s := {| columns := summary_columns7; rows := rs |}).
  change (positions "Method" s) with [0%nat].
  change (positions "Mean_ms" s) with [1%nat].
  change (positions "StdDev_ms" s) with [2%nat].
  change (positions "Fallback_pct" s) with [3%nat].
  change (positions "Accuracy_pct" s) with [4%nat].
  change (positions "Samples" s) with [5%nat].
  change (positions "CI95_ms" s) with [6%nat].
  cbn [rbind ok cell nth np_isnan py_float].
  destruct (np_isnan (fillna_cell (assume_n a) (VFloat mx))) as [e|b] eqn:Eb;
    [ repeat (destruct (negb _); cbn [rbind ok]); discriminate |].
  apply fillna_cell_not_nan in Eb. subst b.
  intros H. exists k, m, sd, fb, ac, mx, n, ci.
  do 3 (split; [assumption || reflexivity|]).
  revert H. unfold or_default.
  destruct (F64.is_nan m), (F64.is_nan sd), (F64.is_nan ci), (F64.is_nan fb),
    (F64.is_nan ac); cbn [negb rbind ok]; rewrite Hn; cbn [rbind ok];
    intros H; inversion H; reflexivity.
Qed.

Lemma run_files (a : args) (w : world) :
  files_written (fst (run a w)) = [] \/
  exists p df0 df s,
    csv_path_of a w = Some p /\ read_csv w p = inr df0 /\
    clean_numeric_columns (canonicalize_columns df0) = inr df /\
    aggregation a df = inr s /\
    (files_written (fst (run a w)) = [cleaned_csv s] \/
     exists rows0,
       mapM (summary_row a s) (rows s) = inr rows0 /\
       let srt := py_sorted by_mean rows0 in
       (files_written (fst (run a w))
        = [cleaned_csv s; runtime_comparison_png srt] \/
        files_written (fst (run a w))
        = [cleaned_csv s; runtime_comparison_png srt; runtime_scaling_png df;
           md_out srt [runtime_plot; scaling_plot]; tex_out srt] \/
        files_written (fst (run a w))
        = [cleaned_csv s; runtime_comparison_png srt;
           md_out srt [runtime_plot]; tex_out srt])).
Proof.
  rewrite run_unfold.
  destruct (csv_path_of a w) as [p|]; [|now left].
  destruct (read_csv w p) as [e|df0] eqn:Er; [now left|].
  destruct (clean_numeric_columns (canonicalize_columns df0)) as [e|df] eqn:Ec;
    [now left|].
  destruct (has_column "Method" df); [|now left].
  destruct (aggregation a df) as [e|s] eqn:Eagg; [now left|].
  right. exists p, df0, df, s. do 4 (split; [reflexivity || assumption|]).
  destruct (mapM (summary_row a s) (rows s)) as [e|rows0]; [now left|].
  right. exists rows0. split; [reflexivity|]. cbv zeta.
  destruct (has_column "InputLength" df && has_column "Runtime_ms" df).
  - destruct (getitem df "Method") as [|j ms|]; [now left| |now left].
    destruct (forallb is_text ms); [right; now left | now left].
  - right. now right.
Qed.


Lemma written_rows (a : args) (w : world) (rws : list Row.t) :
  In (runtime_comparison_png rws) (files_written (fst (run a w))) \/
  (exists plots, In (md_out rws plots) (files_written (fst (run a w)))) \/
  In (tex_out rws) (files_written (fst (run a w))) ->
  exists df s rows0,
    aggregation a df = inr s /\
    mapM (summary_row a s) (rows s) = inr rows0 /\
    rws = py_sorted by_mean rows0 /\
    In (cleaned_csv s) (files_written (fst (run a w))).
Proof.
  destruct (run_files a w) as [E | [p [df0 [df [s [_ [_ [_ [Hagg H]]]]]]]]].
  - rewrite E. intros [[] | [[plots []] | []]].
  - intros Hin. exists df, s.
    destruct H as [E | [rows0 [Hm H]]].
    + rewrite E in Hin.
      destruct Hin as [Hin | [[plots Hin] | Hin]];
        (destruct Hin as [Hin|[]]; discriminate Hin).
    + exists rows0. split; [assumption|]. split; [assumption|].
      cbv zeta in H.
      assert (Hc : In (cleaned_csv s) (files_written (fst (run a w)))).
      { destruct H as [E | [E | E]]; rewrite E; now left. }
      split; [|exact Hc].
      destruct H as [E | [E | E]]; rewrite E in Hin;
        destruct Hin as [Hin | [[plots Hin] | Hin]];
        repeat (destruct Hin as [Hin|Hin];
                [try discriminate Hin; inversion Hin; reflexivity|]);
        destruct Hin.
Qed.

Lemma SFcompare_antisym (x y : F64.float) :
  SFcompare y x = option_map CompOpp (SFcompare x y).
Proof.
  destruct x as [s| s| |s m e], y as [t| t| |t n f]; try reflexivity;
    try (destruct s; reflexivity); try (destruct t; reflexivity);
    try (destruct s, t; reflexivity).
  destruct s, t; cbn; try reflexivity.
  - rewrite (Z.compare_antisym f e).
    destruct (f ?= e); cbn; try reflexivity.
    rewrite CompOpp_involutive. f_equal.
    apply (Pos.compare_cont_antisym n m Eq).
  - rewrite (Z.compare_antisym f e).
    destruct (f ?= e); cbn; try reflexivity.
    f_equal. symmetry. apply (Pos.compare_cont_antisym m n Eq).
Qed.

Lemma ltb_leb (x y : F64.float) : F64.ltb x y = true -> F64.leb x y = true.
Proof.
  unfold F64.ltb, F64.leb, SFltb, SFleb.
  destruct (SFcompare x y) as [[ | | ]|]; congruence.
Qed.

Lemma not_ltb_leb (x y : F64.float) :
  F64.is_nan x = false -> F64.is_nan y = false ->
  F64.ltb y x = false -> F64.leb x y = true.
Proof.
  unfold F64.ltb, F64.leb, SFltb, SFleb. rewrite (SFcompare_antisym x y).
  intros Hx Hy.
  destruct (SFcompare x y) as [[ | | ]|] eqn:E; cbn; try congruence.
  destruct x, y; cbn in *; try discriminate.
Qed.

Lemma insert_sorted_HdRel (x y : Row.t) (l : list Row.t) :
  mean_le y x -> HdRel mean_le y l -> HdRel mean_le y (insert_sorted by_mean x l).
Proof.
  intros Hyx Hl. destruct l as [|z t]; cbn.
  - now constructor.
  - destruct (by_mean z x); constructor; [now inversion Hl | assumption].
Qed.

Lemma insert_sorted_Sorted (x : Row.t) (l : list Row.t) :
  has_mean x -> Forall has_mean l -> Sorted mean_le l ->
  Sorted mean_le (insert_sorted by_mean x l).
Proof.
  intros Hx Hl Hs. induction Hs as [|y t Hs IH Hd]; cbn.
  - repeat constructor.
  - inversion Hl as [|? ? Hy Ht]; subst.
    destruct (by_mean y x) eqn:E.
    + constructor; [now apply IH|].
      apply insert_sorted_HdRel; [|assumption].
      now apply ltb_leb.
    + constructor; [now constructor|]. constructor.
      now apply not_ltb_leb.
Qed.

Lemma insert_sorted_Forall {A} (P : A -> Prop) (lt : A -> A -> bool)
      (x : A) (l : list A) :
  P x -> Forall P l -> Forall P (insert_sorted lt x l).
Proof.
  intros Hx Hl. induction Hl as [|y t Hy Ht IH]; cbn.
  - now constructor.
  - destruct (lt y x); constructor; auto.
Qed.

Lemma py_sorted_Forall {A} (P : A -> Prop) (lt : A -> A -> bool) (l : list A) :
  Forall P l -> Forall P (py_sorted lt l).
Proof.
  induction 1; cbn; [constructor | now apply insert_sorted_Forall].
Qed.

Lemma py_sorted_Sorted (l : list Row.t) :
  Forall has_mean l -> Sorted mean_le (py_sorted by_mean l).
Proof.
  induction 1 as [|x t Hx Ht IH]; cbn; [constructor|].
  apply insert_sorted_Sorted; auto. now apply py_sorted_Forall.
Qed.

Lemma insert_sorted_Permutation {A} (lt : A -> A -> bool) (x : A) (l : list A) :
  Permutation (x :: l) (insert_sorted lt x l).
Proof.
  induction l as [|y t IH]; cbn; [reflexivity|].
  destruct (lt y x); [|reflexivity].
  rewrite perm_swap. now constructor.
Qed.

Lemma py_sorted_Permutation {A} (lt : A -> A -> bool) (l : list A) :
  Permutation l (py_sorted lt l).
Proof.
  induction l as [|x t IH]; cbn; [constructor|].
  rewrite <- insert_sorted_Permutation. now constructor.
Qed.

Lemma or_default_not_nan (d x : F64.float) :
  F64.is_nan d = false -> F64.is_nan (or_default d x) = false.
Proof. unfold or_default. destruct (F64.is_nan x) eqn:E; auto. Qed.



Lemma Forall2_impl_Forall {A B} (P : A -> Prop) (R R' : A -> B -> Prop)
      (l : list A) (l' : list B) :
  Forall P l -> Forall2 R l l' -> (forall a b, P a -> R a b -> R' a b) ->
  Forall2 R' l l'.
Proof.
  intros HP HR. revert HP. induction HR; intros HP HI; constructor;
    inversion HP; subst; auto.
Qed.

Lemma py_int_filled (n0 n : Z) (mx : F64.float) :
  py_int (fillna_cell n0 (VFloat mx)) = inr n ->
  (F64.is_nan mx = true -> n = n0) /\
  (F64.is_nan mx = false -> F64.to_int mx = Some n).
Proof.
  unfold fillna_cell. cbn [isna]. destruct (F64.is_nan mx) eqn:Em.
  - intros H. split; [intros _ | discriminate].
    destruct (F64.to_int (F64.of_Z n0)) as [n'|] eqn:Ei.
    + destruct (n' =? n0) eqn:En.
      * cbn [py_int] in H. rewrite Ei in H. apply Z.eqb_eq in En.
        unfold ok in H. congruence.
      * cbn [py_int] in H. now inversion H.
    + cbn [py_int] in H. now inversion H.
  - cbn [py_int]. intros H. split; [discriminate | intros _].
    destruct (F64.to_int mx); [now inversion H | discriminate].
Qed.

Lemma rendered_rows (a : args) (df s : DataFrame) (rows0 : list Row.t) :
  aggregation a df = inr s ->
  mapM (summary_row a s) (rows s) = inr rows0 ->
  Forall2 (rendered_with_defaults a s) (rows s) rows0.
Proof.
  intros Hagg Hm.
  destruct (aggregation_shape a df s Hagg) as [Hc [Hr _]].
  destruct s as [cs rs]. cbn [columns rows] in *. subst cs.
  apply mapM_Forall2 in Hm.
  eapply Forall2_impl_Forall; [exact Hr | exact Hm |].
  intros row r Hshape Hrow. cbv beta in Hrow.
  destruct (summary_row_shape a rs row r Hshape Hrow)
    as [k [m [sd [fb [ac [mx [n [ci [-> [Hn [Hci ->]]]]]]]]]]].
  exists m, sd, ci, fb, ac, mx. unfold item.
  set (s := {| columns := summary_columns7; rows := rs |}).
  change (positions "Mean_ms" s) with [1%nat].
  change (positions "StdDev_ms" s) with [2%nat].
  change (positions "Fallback_pct" s) with [3%nat].
  change (positions "Accuracy_pct" s) with [4%nat].
  change (positions "Samples" s) with [5%nat].
  change (positions "CI95_ms" s) with [6%nat].
  cbn [cell nth Row.Mean_ms Row.StdDev_ms Row.CI95_ms Row.Fallback_pct
       Row.Accuracy_pct Row.Samples].
  do 11 (split; [reflexivity|]).
  now apply py_int_filled.
Qed.


(** C6 (amended). The rows handed to the bar chart, the markdown report
    and the LaTeX table are in ascending order of Mean_ms. (The summary
    CSV is written before the sort, in the order of the group keys.) *)
Theorem rendered_rows_sorted_by_mean (a : args) (w : world) (rws : list Row.t) :
  In (runtime_comparison_png rws) (files_written (fst (run a w))) \/
  (exists plots, In (md_out rws plots) (files_written (fst (run a w)))) \/
  In (tex_out rws) (files_written (fst (run a w))) ->
  Sorted mean_le rws.
Proof.
  intros H.
  destruct (written_rows a w rws H) as [df [s [rows0 [Hagg [Hm [-> Hc]]]]]].
  apply py_sorted_Sorted.
  pose proof (rendered_rows a df s rows0 Hagg Hm) as HR.
  eapply Forall2_Forall_r; [exact HR|].
  intros row r [m [sd [ci [fb [ac [mx [_ [E _]]]]]]]].
  unfold has_mean. rewrite E. now apply or_default_not_nan.
Qed.

(** ** Runs on concrete tables *)



(** C6 (counterexample). The summary CSV of the run on [benchmark] lists
    Hybrid, with mean 2.0, before Regex, with mean 1.0: its rows are in
    the order of the method names, not of the means. *)
Lemma summary_csv_not_sorted_by_mean :
  In (cleaned_csv benchmark_summary)
     (files_written (fst (run with_csv (given benchmark)))) /\
  nth 1 (columns benchmark_summary) "" = "Mean_ms" /\
  column_at 0 benchmark_summary = [VStr "DFA"; VStr "Hybrid"; VStr "Regex"] /\
  column_at 1 benchmark_summary = [missing; num "2.0"; num "1"] /\
  F64.ltb (extract_number (VStr "1")) (extract_number (VStr "2.0")) = true.
Proof. split; [left; reflexivity | repeat split]. Qed.

(** C6 (witness): the rows rendered from [benchmark]. *)
Lemma rendered_rows_sorted_by_mean_witness :
  Sorted mean_le benchmark_rendered.
Proof.
  apply (rendered_rows_sorted_by_mean with_csv (given benchmark)).
  right. right. vm_compute. do 3 right. left. reflexivity.
Defined.

(** C1. The source table [benchmark] has a CI95 column with 0.5 in every
    row; the summary has 0.98 for Regex (1.96 * 1 / sqrt 4) and
    0.3578... for Hybrid (1.96 * 1 / sqrt 30): the aggregation does not
    carry CI95_ms into [summary], so the source value is never read. *)
Lemma source_ci95_is_ignored :
  canonical_name "CI95" = "CI95_ms" /\
  column_at 3 benchmark = [num "0.5"; num "0.5"; num "0.5"] /\
  In (cleaned_csv benchmark_summary)
     (files_written (fst (run with_csv (given benchmark)))) /\
  columns benchmark_summary = summary_columns7 /\
  column_at 0 benchmark_summary = [VStr "DFA"; VStr "Hybrid"; VStr "Regex"] /\
  column_at 6 benchmark_summary
  = [missing; num "0.3578454042367085"; num "0.98"].
Proof. do 2 (split; [reflexivity|]). split; [left; reflexivity | repeat split]. Qed.

(** [agg] raises when its dictionary names a column the table lacks. *)
Lemma aggregation_needs_every_column (a : args) (df : DataFrame) (c : string) :
  In c ["Mean_ms"; "StdDev_ms"; "Fallback_pct"; "Accuracy_pct"; "Samples"] ->
  has_column c df = false ->
  exists e, aggregation a df = inl e.
Proof.
  intros Hc Hno. unfold aggregation, groupby_agg.
  destruct (getitem df "Method"); try (eexists; reflexivity).
  assert (F : forallb (fun p : string * how => has_column (fst p) df)
                      (agg_spec df) = false).
  { apply not_true_is_false. intros F.
    rewrite forallb_forall in F.
    assert (Hin : exists h, In (c, h) (agg_spec df)).
    { unfold agg_spec. cbn in Hc.
      destruct Hc as [<-|[<-|[<-|[<-|[<-|[]]]]]]; eexists; cbn; eauto 6. }
    destruct Hin as [h Hin]. specialize (F _ Hin). cbn in F. congruence. }
  rewrite F. eexists; reflexivity.
Qed.

(** C2. On a table with a Method column only, and on the table of the
    worked example (no Fallback, Accuracy or Samples column), the
    aggregation raises KeyError: no file is written and the process
    ends with exit code 1. *)
Lemma aggregation_raises_on_absent_column :
  has_column "Method" (canonicalize_columns method_only) = true /\
  run with_csv (given method_only)
  = ([Print (UsingCsv "report.csv")], inl KeyError) /\
  run with_csv (given worked_example)
  = ([Print (UsingCsv "report.csv")], inl KeyError) /\
  exit_code (run with_csv (given method_only)) = 1.
Proof. repeat split. Qed.

(** ** Detailed rows *)

(** C3 (counterexample). On [detailed_table] the scaling plot receives the
    two per-sample rows, and the same two rows are aggregated into the
    one summary row of Regex, whose mean 2.0 is the mean of their
    Mean_ms cells 1 and 3. *)
Lemma detailed_rows_are_aggregated :
  In (runtime_scaling_png detailed_table)
     (files_written (fst (run with_csv (given detailed_table)))) /\
  column_at 1 detailed_table = [num "1"; num "3"] /\
  In (md_out detailed_rendered [runtime_plot; scaling_plot])
     (files_written (fst (run with_csv (given detailed_table)))) /\
  map Row.Method detailed_rendered = [VStr "Regex"] /\
  map Row.Mean_ms detailed_rendered = [extract_number (VStr "2.0")].
Proof.
  split; [do 2 right; left; reflexivity|].
  split; [reflexivity|].
  split; [do 3 right; left; reflexivity|].
  split; reflexivity.
Qed.

(** C3 (amended). When a run writes the scaling plot, the table the plot
    receives is the whole cleaned table, and the summary, written to the
    CSV and rendered in the reports, is the aggregation of that same
    table: its rows grouped by Method. *)
Theorem detailed_rows_feed_plot_and_summary (a : args) (w : world)
        (d : DataFrame) :
  In (runtime_scaling_png d) (files_written (fst (run a w))) ->
  exists p df0 summary rows0,
    csv_path_of a w = Some p /\ read_csv w p = inr df0 /\
    clean_numeric_columns (canonicalize_columns df0) = inr d /\
    aggregation a d = inr summary /\
    mapM (summary_row a summary) (rows summary) = inr rows0 /\
    files_written (fst (run a w))
    = [ cleaned_csv summary;
        runtime_comparison_png (py_sorted by_mean rows0);
        runtime_scaling_png d;
        md_out (py_sorted by_mean rows0) [runtime_plot; scaling_plot];
        tex_out (py_sorted by_mean rows0) ].
Proof.
  destruct (run_files a w)
    as [E | [p [df0 [df [s [Ep [Er [Ec [Hagg H]]]]]]]]].
  - rewrite E. intros [].
  - intros Hin.
    destruct H as [E | [rows0 [Hm [E | [E | E]]]]]; rewrite E in Hin;
      try (repeat (destruct Hin as [Hin|Hin]; [discriminate Hin|]);
           now destruct Hin).
    destruct Hin as [Hin|[Hin|[Hin|Hin]]]; try discriminate Hin.
    + inversion Hin; subst d. exists p, df0, s, rows0. auto 10.
    + repeat (destruct Hin as [Hin|Hin]; [discriminate Hin|]). destruct Hin.
Qed.

(** C3 (witness): the run on [detailed_table]. *)
Lemma detailed_rows_feed_plot_and_summary_witness :
  exists p df0 summary rows0,
    csv_path_of with_csv (given detailed_table) = Some p /\
    read_csv (given detailed_table) p = inr df0 /\
    clean_numeric_columns (canonicalize_columns df0) = inr detailed_table /\
    aggregation with_csv detailed_table = inr summary /\
    mapM (summary_row with_csv summary) (rows summary) = inr rows0 /\
    files_written (fst (run with_csv (given detailed_table)))
    = [ cleaned_csv summary;
        runtime_comparison_png (py_sorted by_mean rows0);
        runtime_scaling_png detailed_table;
        md_out (py_sorted by_mean rows0) [runtime_plot; scaling_plot];
        tex_out (py_sorted by_mean rows0) ].
Proof.
  apply (detailed_rows_feed_plot_and_summary with_csv (given detailed_table)
           detailed_table).
  vm_compute. do 2 right. left. reflexivity.
Defined.

(** ** The text of a float *)















(** ** The pattern on the text of a finite float *)

Lemma num_re_parts : num_re = Re.Cat (Re.Opt (Re.Cls is_sign)) r_int.
Proof. reflexivity. Qed.

Lemma digit_is_plain (c : ascii) :
  is_digit c = true -> is_sign c = false /\ is_dot c = false /\ is_e c = false.
Proof.
  destruct c as [[] [] [] [] [] [] [] []]; cbn; intros H;
    try discriminate H; repeat split.
Qed.


Lemma append_empty_r (s : string) : s ++ "" = s.
Proof. induction s as [|c t IH]; cbn; [reflexivity | now rewrite IH]. Qed.

Lemma append_assoc (a b c : string) : (a ++ b) ++ c = a ++ (b ++ c).
Proof. induction a as [|x t IH]; cbn; [reflexivity | now rewrite IH]. Qed.













(** ** Cells without a number *)

Lemma run_frac_no_digit (s : string) (k : string -> option string) :
  no_digit s = true -> Re.run r_frac s k = None.
Proof.
  destruct s as [|c t]; [reflexivity|]. cbn [no_digit]. intros H.
  apply andb_prop in H. destruct H as [Hc _].
  apply negb_true_iff in Hc. unfold r_frac. cbn [Re.run]. now rewrite Hc.
Qed.

Lemma run_dot_no_digit (s : string) (k : string -> option string) :
  no_digit s = true -> Re.run r_dot s k = None.
Proof.
  intros H. unfold r_dot. cbn [Re.run].
  change (Re.run (Re.Cat (Re.Plus is_digit) r_exp)) with (Re.run r_frac).
  rewrite (run_frac_no_digit s k H).
  destruct s as [|c t]; [reflexivity|].
  cbn [no_digit] in H. apply andb_prop in H. destruct H as [_ Ht].
  destruct (is_dot c); [|reflexivity].
  now rewrite (run_frac_no_digit t k Ht).
Qed.

Lemma run_int_no_digit (s : string) (k : string -> option string) :
  no_digit s = true -> Re.run r_int s k = None.
Proof.
  intros H. unfold r_int. cbn [Re.run].
  assert (E : Re.star is_digit s (fun s' => Re.run r_dot s' k)
              = Re.run r_dot s k).
  { destruct s as [|c t]; [reflexivity|].
    cbn [no_digit] in H. apply andb_prop in H. destruct H as [Hc _].
    apply negb_true_iff in Hc. cbn [Re.star]. now rewrite Hc. }
  rewrite E. now apply run_dot_no_digit.
Qed.

Lemma search_no_digit (s : string) :
  no_digit s = true -> Re.search num_re s = None.
Proof.
  induction s as [|c t IH]; intros H.
  - reflexivity.
  - assert (M : Re.match_at num_re (String c t) = None).
    { unfold Re.match_at. rewrite num_re_parts. cbn [Re.run].
      rewrite (run_int_no_digit (String c t) _ H).
      cbn [no_digit] in H. apply andb_prop in H. destruct H as [_ Ht].
      destruct (is_sign c); [|reflexivity].
      now rewrite (run_int_no_digit t _ Ht). }
    cbn [Re.search]. rewrite M.
    cbn [no_digit] in H. apply andb_prop in H. destruct H as [_ Ht].
    now apply IH.
Qed.

(** A text cell without a digit is read as the missing value. *)
Lemma extract_number_unparseable (text : string) :
  no_digit text = true -> extract_number (VStr text) = F64.nan.
Proof.
  intros H. unfold extract_number. cbn [isna py_str].
  now rewrite (search_no_digit text H).
Qed.

(** The mean of a group whose cells are all missing is missing. *)
Lemma group_mean_all_missing (xs : list F64.float) :
  forallb F64.is_nan xs = true -> group_mean xs = F64.nan.
Proof.
  intros H. unfold group_mean.
  assert (E : filter (fun x => negb (F64.is_nan x)) xs = []).
  { induction xs as [|x t IH]; [reflexivity|].
    cbn in H |- *. apply andb_prop in H. destruct H as [Hx Ht].
    rewrite Hx. cbn. now apply IH. }
  now rewrite E.
Qed.

(* ================================================================= *)
(** * Properties of the stages *)

(** ** The latest CSV *)

Lemma find_latest_csv_scanned (w : world) (paths : list string) :
  find_latest_csv w paths =
  match py_sorted newer_first (scanned w paths) with
  | f :: _ => Some (path f)
  | [] => None
  end.
Proof.
  unfold find_latest_csv. fold (scanned w paths).
  destruct (scanned w paths); reflexivity.
Qed.

Lemma py_sorted_nil {A} (lt : A -> A -> bool) (l : list A) :
  py_sorted lt l = [] -> l = [].
Proof.
  intros H. pose proof (py_sorted_Permutation lt l) as P. rewrite H in P.
  now apply Permutation_sym, Permutation_nil in P.
Qed.

(** The head of the files sorted newest first is the first file of the
    list that no file is newer than. *)
Lemma newest_first_head (l : list file_stat) (h : file_stat) (t : list file_stat) :
  py_sorted newer_first l = h :: t ->
  exists before after,
    l = (before ++ h :: after)%list /\
    (forall g, In g before -> st_mtime g < st_mtime h) /\
    (forall g, In g after -> st_mtime g <= st_mtime h).
Proof.
  revert h t. induction l as [|x l IH]; intros h t H; [discriminate|].
  cbn [py_sorted fold_right] in H. fold (py_sorted newer_first l) in H.
  destruct (py_sorted newer_first l) as [|y t'] eqn:E.
  - apply py_sorted_nil in E. subst l. cbn in H. inversion H; subst.
    exists [], []. repeat split; intros g [].
  - destruct (IH y t' eq_refl) as [b [a [El [Hb Ha]]]].
    cbn [insert_sorted] in H. unfold newer_first at 1 in H.
    destruct (st_mtime x <? st_mtime y) eqn:C.
    + apply Z.ltb_lt in C. inversion H; subst h t.
      exists (x :: b), a. split; [now rewrite El|]. split; [|assumption].
      intros g [<-|Hg]; [assumption | now apply Hb].
    + apply Z.ltb_ge in C. inversion H; subst h t.
      exists [], l. split; [reflexivity|]. split; [intros g []|].
      intros g Hg. rewrite El in Hg. apply in_app_or in Hg.
      destruct Hg as [Hg|[<-|Hg]].
      * specialize (Hb g Hg). lia.
      * lia.
      * specialize (Ha g Hg). lia.
Qed.

(** X1. [find_latest_csv] returns the newest CSV of the scan and, among
    the files of that time, the first one scanned: every file scanned
    before it is strictly older, and no file scanned after it is newer. *)
Theorem find_latest_csv_first_newest (w : world) (paths : list string)
        (p : string) :
  find_latest_csv w paths = Some p ->
  exists before f after,
    scanned w paths = (before ++ f :: after)%list /\ path f = p /\
    (forall g, In g before -> st_mtime g < st_mtime f) /\
    (forall g, In g after -> st_mtime g <= st_mtime f).
Proof.
  rewrite find_latest_csv_scanned.
  destruct (py_sorted newer_first (scanned w paths)) as [|f t] eqn:E;
    [discriminate|].
  intros H. inversion H; subst p.
  destruct (newest_first_head _ _ _ E) as [b [a [El [Hb Ha]]]].
  exists b, f, a. auto.
Qed.

(** X2. [find_latest_csv] returns [None] exactly when every search path
    is missing or holds no CSV. *)
Theorem find_latest_csv_none_iff (w : world) (paths : list string) :
  find_latest_csv w paths = None <->
  (forall p, In p paths -> rglob_csv w p = None \/ rglob_csv w p = Some []).
Proof.
  split; [|apply find_latest_csv_none].
  rewrite find_latest_csv_scanned.
  destruct (py_sorted newer_first (scanned w paths)) as [|f t] eqn:E;
    [|discriminate].
  intros _ p Hp. apply py_sorted_nil in E.
  destruct (rglob_csv w p) as [[|g fs]|] eqn:Ep; auto.
  exfalso. assert (Hin : In g (scanned w paths)).
  { unfold scanned. apply in_flat_map. exists p. split; [assumption|].
    rewrite Ep. now left. }
  rewrite E in Hin. destruct Hin.
Qed.

(** X1 (witness): in [two_directories] the latest file is data/b.csv,
    scanned before experiments/c.csv of the same time. *)
Lemma find_latest_csv_first_newest_witness :
  exists before f after,
    scanned two_directories search_paths = (before ++ f :: after)%list /\
    path f = "data/b.csv" /\
    (forall g, In g before -> st_mtime g < st_mtime f) /\
    (forall g, In g after -> st_mtime g <= st_mtime f).
Proof.
  apply (find_latest_csv_first_newest two_directories search_paths "data/b.csv").
  reflexivity.
Defined.

(** ** Canonical names are fixed *)

(** *** Stripping twice *)

Lemma lstrip_idem (s : string) : lstrip (lstrip s) = lstrip s.
Proof.
  induction s as [|c t IH]; [reflexivity|]. cbn.
  destruct (is_space c) eqn:E; [exact IH|]. cbn. now rewrite E.
Qed.

Lemma rstrip_idem (s : string) : rstrip (rstrip s) = rstrip s.
Proof.
  induction s as [|c t IH]; [reflexivity|]. cbn.
  destruct (rstrip t) as [|c' t'] eqn:E.
  - destruct (is_space c) eqn:Ec; [reflexivity|]. cbn. now rewrite Ec.
  - cbn [rstrip]. fold rstrip. cbn [rstrip] in IH. now rewrite IH.
Qed.

Lemma lstrip_rstrip (s : string) : lstrip (rstrip s) = rstrip (lstrip s).
Proof.
  induction s as [|c t IH]; [reflexivity|].
  cbn [lstrip]. destruct (is_space c) eqn:Ec.
  - rewrite <- IH. cbn [rstrip].
    destruct (rstrip t) as [|c' t'] eqn:E.
    + now rewrite Ec.
    + cbn [lstrip]. now rewrite Ec.
  - cbn [rstrip]. destruct (rstrip t) as [|c' t'].
    + rewrite Ec. cbn. now rewrite Ec.
    + cbn. now rewrite Ec.
Qed.

Lemma strip_idem (s : string) : strip (strip s) = strip s.
Proof.
  unfold strip. now rewrite lstrip_rstrip, lstrip_idem, rstrip_idem.
Qed.

Lemma colmap_range (c name : string) :
  colmap c = Some name -> In name canonical_names.
Proof.
  unfold colmap.
  repeat match goal with
         | |- context [if ?b then _ else _] => destruct b
         end; intros H; inversion H; cbn; tauto.
Qed.

Lemma canonical_name_fixed (name : string) :
  In name canonical_names -> canonical_name name = name.
Proof.
  cbn. intros H.
  repeat (destruct H as [<-|H]; [reflexivity|]). destruct H.
Qed.

Lemma canonical_name_idem (h : string) :
  canonical_name (canonical_name h) = canonical_name h.
Proof.
  rewrite (canonical_name_unfold h).
  destruct (colmap (strip h)) as [name|] eqn:E.
  - apply canonical_name_fixed. now apply colmap_range in E.
  - rewrite canonical_name_unfold, strip_idem, E. reflexivity.
Qed.

(** X3. [canonicalize_columns] is idempotent: the canonical names are
    fixed by the chain. It leaves the rows and the number of columns as
    they are. *)
Theorem canonicalize_columns_idem (df : DataFrame) :
  canonicalize_columns (canonicalize_columns df) = canonicalize_columns df /\
  rows (canonicalize_columns df) = rows df /\
  List.length (columns (canonicalize_columns df)) = List.length (columns df).
Proof.
  split; [|split].
  - pose proof (columns_canonicalize (canonicalize_columns df)) as H.
    rewrite (columns_canonicalize df), map_map in H.
    destruct (canonicalize_columns (canonicalize_columns df)) as [cs rs] eqn:E.
    destruct (canonicalize_columns df) as [cs' rs'] eqn:E'.
    pose proof (columns_canonicalize df) as H'. rewrite E' in H'.
    cbn [columns] in H, H'. subst cs cs'.
    assert (rs = rs') by (unfold canonicalize_columns, rename in E, E';
                          inversion E; inversion E'; congruence).
    subst rs. f_equal. apply map_ext. apply canonical_name_idem.
  - reflexivity.
  - rewrite columns_canonicalize. apply length_map.
Qed.

(** ** When cleaning raises *)


Lemma positions_map_column (c : string) (j : nat) (f : value -> value)
      (df : DataFrame) :
  positions c (map_column j f df) = positions c df.
Proof. reflexivity. Qed.




(** ** What cleaning does to a column *)

Lemma cell_set_nth_other (j j' : nat) (v : value) (r : list value) :
  j <> j' -> cell j' (set_nth j v r) = cell j' r.
Proof.
  unfold cell. revert j' r. induction j as [|j IH]; intros j' r Hne.
  - destruct r as [|h t]; [reflexivity|]. destruct j'; [congruence | reflexivity].
  - destruct r as [|h t]; [reflexivity|]. cbn [set_nth].
    destruct j' as [|j']; [reflexivity|]. cbn [nth]. apply IH. congruence.
Qed.

Lemma cell_set_nth_same (j : nat) (v : value) (r : list value) :
  cell j (set_nth j v r) = if (j <? List.length r)%nat then v else missing.
Proof.
  unfold cell. revert r. induction j as [|j IH]; intros r.
  - destruct r; reflexivity.
  - destruct r as [|h t]; [reflexivity|]. cbn [set_nth nth List.length].
    rewrite IH. reflexivity.
Qed.

Lemma cell_beyond (j : nat) (r : list value) :
  (j <? List.length r)%nat = false -> cell j r = missing.
Proof.
  intros H. apply Nat.ltb_ge in H. unfold cell. now apply nth_overflow.
Qed.

Lemma column_at_map_column_same (j : nat) (f : value -> value) (df : DataFrame) :
  f missing = missing ->
  column_at j (map_column j f df) = map f (column_at j df).
Proof.
  intros Hf. unfold column_at, map_column. cbn [rows]. rewrite !map_map.
  apply map_ext. intros r. rewrite cell_set_nth_same.
  destruct (j <? List.length r)%nat eqn:E; [reflexivity|].
  now rewrite (cell_beyond j r E), Hf.
Qed.

Lemma column_at_map_column_other (j j' : nat) (f : value -> value)
      (df : DataFrame) :
  j <> j' -> column_at j' (map_column j f df) = column_at j' df.
Proof.
  intros Hne. unfold column_at, map_column. cbn [rows]. rewrite map_map.
  apply map_ext. intros r. now apply cell_set_nth_other.
Qed.

Lemma positions_from_spec (i j : nat) (c : string) (l : list string) :
  In j (positions_from i c l) <->
  (i <= j)%nat /\ nth_error l (j - i) = Some c.
Proof.
  revert i. induction l as [|h t IH]; intros i; cbn [positions_from].
  - split; [intros [] | intros [_ H]]. now destruct (j - i)%nat.
  - assert (Hstep : In j (positions_from (S i) c t) <->
                    (S i <= j)%nat /\ nth_error (h :: t) (j - i) = Some c).
    { rewrite IH. split; intros [H1 H2]; (split; [assumption|]).
      - replace (j - i)%nat with (S (j - S i)) by lia. exact H2.
      - replace (j - i)%nat with (S (j - S i)) in H2 by lia. exact H2. }
    destruct (String.eqb_spec c h) as [->|Hne].
    + cbn [In]. rewrite Hstep. split.
      * intros [<-|[H1 H2]].
        -- split; [lia|]. now rewrite Nat.sub_diag.
        -- split; [lia | assumption].
      * intros [H1 H2]. destruct (Nat.eq_dec i j) as [->|Hn]; [now left|].
        right. split; [lia | assumption].
    + rewrite Hstep. split.
      * intros [H1 H2]. split; [lia | assumption].
      * intros [H1 H2]. split; [|assumption].
        destruct (Nat.eq_dec i j) as [->|Hn]; [|lia].
        rewrite Nat.sub_diag in H2. cbn in H2. congruence.
Qed.

Lemma positions_single (c : string) (df : DataFrame) (j : nat) :
  positions c df = [j] ->
  nth_error (columns df) j = Some c /\
  forall j', nth_error (columns df) j' = Some c -> j' = j.
Proof.
  intros H. unfold positions in H. split.
  - assert (Hin : In j (positions_from 0 c (columns df))) by (rewrite H; now left).
    apply positions_from_spec in Hin. now rewrite Nat.sub_0_r in Hin.
  - intros j' Hj'.
    assert (Hin : In j' (positions_from 0 c (columns df))).
    { apply positions_from_spec. rewrite Nat.sub_0_r. split; [lia | assumption]. }
    rewrite H in Hin. destruct Hin as [<-|[]]. reflexivity.
Qed.

Lemma extract_number_missing : VFloat (extract_number missing) = missing.
Proof. reflexivity. Qed.

Lemma not_object_after_extract (cells : list value) :
  dtype_is_object (map (fun v => VFloat (extract_number v)) cells) = false.
Proof.
  unfold dtype_is_object. induction cells as [|v t IH]; [reflexivity|].
  cbn [map existsb is_text orb]. exact IH.
Qed.

Lemma clean_column_idem (cells : list value) :
  clean_column (clean_column cells) = clean_column cells.
Proof.
  unfold clean_column. destruct (dtype_is_object cells) eqn:E.
  - now rewrite not_object_after_extract.
  - now rewrite E.
Qed.

Lemma clean_loop_columnwise (labels : list string) (df df' : DataFrame) :
  clean_loop labels df = inr df' ->
  forall j c, nth_error (columns df) j = Some c ->
    column_at j df' =
    if negb (String.eqb c "Method") && existsb (String.eqb c) labels
    then clean_column (column_at j df) else column_at j df.
Proof.
  revert df. induction labels as [|col rest IH]; intros df H j c Hj.
  - inversion H. cbn. now rewrite andb_false_r.
  - cbn [clean_loop] in H. cbn [existsb].
    destruct (String.eqb_spec col "Method") as [->|Hne].
    + rewrite (IH df H j c Hj).
      destruct (String.eqb_spec c "Method") as [->|Hc]; [reflexivity|].
      reflexivity.
    + unfold getitem in H.
      destruct (positions col df) as [|j0 [|j1 more]] eqn:Ep; try discriminate.
      destruct (positions_single col df j0 Ep) as [Hj0 Huniq].
      set (df1 := if dtype_is_object (column_at j0 df)
                  then map_column j0 (fun v => VFloat (extract_number v)) df
                  else df).
      assert (E1 : columns df1 = columns df)
        by (subst df1; destruct (dtype_is_object _); reflexivity).
      assert (H1 : clean_loop rest df1 = inr df')
        by (subst df1; destruct (dtype_is_object _); exact H).
      assert (Hj1 : nth_error (columns df1) j = Some c) by now rewrite E1.
      rewrite (IH df1 H1 j c Hj1).
      destruct (Nat.eq_dec j j0) as [->|Hjn].
      * assert (c = col) by congruence. subst c.
        assert (Ec : column_at j0 df1 = clean_column (column_at j0 df)).
        { subst df1. unfold clean_column.
          destruct (dtype_is_object (column_at j0 df)); [|reflexivity].
          apply column_at_map_column_same. exact extract_number_missing. }
        rewrite Ec, clean_column_idem, String.eqb_refl.
        destruct (String.eqb_spec col "Method"); [congruence|].
        cbn. now destruct (existsb _ rest).
      * assert (Hc : c <> col).
        { intros ->. apply Hjn. now apply Huniq. }
        assert (Ec : column_at j df1 = column_at j df).
        { subst df1. destruct (dtype_is_object (column_at j0 df)); [|reflexivity].
          apply column_at_map_column_other. congruence. }
        rewrite Ec. destruct (String.eqb_spec c col); [congruence|]. reflexivity.
Qed.

Lemma clean_loop_rows (labels : list string) (df df' : DataFrame) :
  clean_loop labels df = inr df' ->
  List.length (rows df') = List.length (rows df).
Proof.
  revert df. induction labels as [|col rest IH]; intros df H.
  - now inversion H.
  - cbn [clean_loop] in H. destruct (String.eqb col "Method"); [now apply IH|].
    destruct (getitem df col) as [|j cells|]; try discriminate.
    destruct (dtype_is_object cells); apply IH in H; [|exact H].
    rewrite H. unfold map_column. cbn [rows]. apply length_map.
Qed.

(** X5. When [clean_numeric_columns] returns, the labels and the number
    of rows are unchanged, the column Method is as it was, and every
    other column is cleaned by itself: when it holds a text its cells are
    replaced by their numbers. No column but Method holds a text
    afterwards. *)
Theorem clean_numeric_columns_columnwise (df df' : DataFrame) :
  clean_numeric_columns df = inr df' ->
  columns df' = columns df /\
  List.length (rows df') = List.length (rows df) /\
  forall j c, nth_error (columns df) j = Some c ->
    column_at j df' =
    (if String.eqb c "Method" then column_at j df
     else clean_column (column_at j df)) /\
    (c <> "Method" -> dtype_is_object (column_at j df') = false).
Proof.
  intros H. split; [now apply clean_columns|].
  split; [now apply (clean_loop_rows (columns df))|].
  intros j c Hj.
  pose proof (clean_loop_columnwise (columns df) df df' H j c Hj) as E.
  assert (Hin : existsb (String.eqb c) (columns df) = true).
  { apply existsb_exists. exists c. split; [|apply String.eqb_refl].
    eapply nth_error_In; eassumption. }
  rewrite Hin, andb_true_r in E.
  destruct (String.eqb_spec c "Method") as [->|Hc]; cbn [negb] in E.
  - split; [exact E | congruence].
  - split; [exact E | intros _]. rewrite E. unfold clean_column.
    destruct (dtype_is_object (column_at j df)) eqn:Eo; [|exact Eo].
    apply not_object_after_extract.
Qed.

(** X5 (witness): the table [messy] after [canonicalize_columns]. *)
Lemma clean_numeric_columns_columnwise_witness :
  exists df',
    clean_numeric_columns (canonicalize_columns messy) = inr df' /\
    columns df' = columns (canonicalize_columns messy) /\
    List.length (rows df') = List.length (rows (canonicalize_columns messy)) /\
    forall j c, nth_error (columns (canonicalize_columns messy)) j = Some c ->
      column_at j df' =
      (if String.eqb c "Method" then column_at j (canonicalize_columns messy)
       else clean_column (column_at j (canonicalize_columns messy))) /\
      (c <> "Method" -> dtype_is_object (column_at j df') = false).
Proof.
  eexists. split; [reflexivity|].
  apply (clean_numeric_columns_columnwise (canonicalize_columns messy)).
  reflexivity.
Defined.

(** ** The matcher and the language of a pattern *)

Lemma star_sound (p : ascii -> bool) (s : string)
      (k : string -> option string) (res : string) :
  Re.star p s k = Some res ->
  exists pre rest, s = pre ++ rest /\ all_in p pre = true /\ k rest = Some res.
Proof.
  induction s as [|c t IH]; cbn [Re.star]; intros H.
  - exists "", "". auto.
  - destruct (p c) eqn:Ec.
    + destruct (Re.star p t k) as [r|] eqn:Es.
      * inversion H; subst r. destruct (IH eq_refl) as [pre [rest [-> [Hp Hk]]]].
        exists (String c pre), rest. cbn. rewrite Ec, Hp. auto.
      * exists "", (String c t). auto.
    + exists "", (String c t). auto.
Qed.

(** What the matcher accepts is in the language of the pattern. *)
Lemma run_sound (r : Re.re) :
  forall (s : string) (k : string -> option string) (res : string),
    Re.run r s k = Some res ->
    exists pre rest, s = pre ++ rest /\ lang r pre /\ k rest = Some res.
Proof.
  induction r as [p | r1 IH1 r2 IH2 | r1 IH1 | p | p]; intros s k res H;
    cbn [Re.run] in H.
  - destruct s as [|c t]; [discriminate|]. destruct (p c) eqn:Ec; [|discriminate].
    exists (String c ""), t. repeat split; [now constructor | assumption].
  - destruct (IH1 _ _ _ H) as [p1 [rest1 [-> [L1 H1]]]].
    destruct (IH2 _ _ _ H1) as [p2 [rest2 [-> [L2 H2]]]].
    exists (p1 ++ p2), rest2. rewrite append_assoc.
    repeat split; [now constructor | assumption].
  - destruct (Re.run r1 s k) as [x|] eqn:E.
    + inversion H; subst x. destruct (IH1 _ _ _ E) as [pre [rest [-> [L Hk]]]].
      exists pre, rest. repeat split; [now apply lang_opt_take | assumption].
    + exists "", s. repeat split; [apply lang_opt_skip | assumption].
  - destruct (star_sound _ _ _ _ H) as [pre [rest [-> [Hp Hk]]]].
    exists pre, rest. repeat split; [now constructor | assumption].
  - destruct s as [|c t]; [discriminate|]. destruct (p c) eqn:Ec; [|discriminate].
    destruct (star_sound _ _ _ _ H) as [pre [rest [-> [Hp Hk]]]].
    exists (String c pre), rest. repeat split; [now constructor | assumption].
Qed.

Lemma length_append (a b : string) :
  String.length (a ++ b) = (String.length a + String.length b)%nat.
Proof. induction a as [|c t IH]; cbn; [reflexivity | now rewrite IH]. Qed.

Lemma substring_prefix (a b : string) : substring 0 (String.length a) (a ++ b) = a.
Proof. induction a as [|c t IH]; cbn; [now destruct b | now rewrite IH]. Qed.

Lemma match_at_sound (r : Re.re) (s m : string) :
  Re.match_at r s = Some m -> lang r m /\ exists rest, s = m ++ rest.
Proof.
  unfold Re.match_at.
  destruct (Re.run r s (fun rest => Some rest)) as [rest|] eqn:E; [|discriminate].
  destruct (run_sound r _ _ _ E) as [pre [rest' [-> [L Hk]]]].
  inversion Hk; subst rest'. intros H. inversion H.
  rewrite length_append, Nat.add_sub, substring_prefix.
  split; [assumption | now exists rest].
Qed.

(** A match of [search] is in the language of the pattern and is a
    contiguous part of the text. *)
Lemma search_sound (r : Re.re) (s m : string) :
  Re.search r s = Some m ->
  lang r m /\ exists before rest, s = before ++ m ++ rest.
Proof.
  induction s as [|c t IH]; cbn [Re.search].
  - destruct (Re.match_at r "") as [m'|] eqn:E; [|discriminate].
    intros H. inversion H; subst m'.
    destruct (match_at_sound _ _ _ E) as [L [rest Hr]].
    split; [assumption | exists "", rest; exact Hr].
  - destruct (Re.match_at r (String c t)) as [m'|] eqn:E.
    + intros H. inversion H; subst m'.
      destruct (match_at_sound _ _ _ E) as [L [rest Hr]].
      split; [assumption | exists "", rest; exact Hr].
    + intros H. destruct (IH H) as [L [before [rest ->]]].
      split; [assumption | now exists (String c before), rest].
Qed.

(** *** Floats read from digits are numbers *)

Lemma shr_1_nonneg (mrs : shr_record) : 0 <= shr_m mrs -> 0 <= shr_m (shr_1 mrs).
Proof.
  destruct mrs as [m r s]. cbn [shr_m]. intros H.
  destruct m as [|[p|p|]|p]; cbn; lia.
Qed.

Lemma iter_pos_nonneg (n : positive) (mrs : shr_record) :
  0 <= shr_m mrs -> 0 <= shr_m (iter_pos shr_1 n mrs).
Proof.
  revert mrs. induction n as [n IH|n IH|]; intros mrs H; cbn [iter_pos].
  - apply IH, IH. now apply shr_1_nonneg.
  - now apply IH, IH.
  - now apply shr_1_nonneg.
Qed.

Lemma shr_fexp_nonneg (m e : Z) (l : location) :
  0 <= m -> 0 <= shr_m (fst (shr_fexp F64.prec F64.emax m e l)).
Proof.
  intros H. unfold shr_fexp, shr.
  assert (H0 : 0 <= shr_m (shr_record_of_loc m l))
    by (destruct l as [|[ | | ]]; exact H).
  destruct (_ - e) as [|p|p]; cbn [fst]; [exact H0 | | exact H0].
  now apply iter_pos_nonneg.
Qed.

Lemma round_nearest_even_nonneg (m : Z) (l : location) :
  0 <= m -> 0 <= round_nearest_even m l.
Proof.
  intros H. destruct l as [|[ | | ]]; cbn; try lia.
  destruct (Z.even m); lia.
Qed.

Lemma binary_round_aux_not_nan (sx : bool) (mx ex : Z) (lx : location) :
  0 <= mx ->
  F64.is_nan (binary_round_aux F64.prec F64.emax sx mx ex lx) = false.
Proof.
  intros H. unfold binary_round_aux.
  pose proof (shr_fexp_nonneg mx ex lx H) as H1.
  destruct (shr_fexp F64.prec F64.emax mx ex lx) as [mrs' e'].
  cbn [fst] in H1.
  pose proof (shr_fexp_nonneg _ e' loc_Exact
                (round_nearest_even_nonneg _ (loc_of_shr_record mrs') H1)) as H2.
  destruct (shr_fexp F64.prec F64.emax _ e' loc_Exact) as [mrs'' e''].
  cbn [fst] in H2.
  destruct (shr_m mrs'') as [|p|p]; [reflexivity | | lia].
  destruct (e'' <=? _); reflexivity.
Qed.

Lemma binary_normalize_not_nan (m e : Z) (sz : bool) :
  F64.is_nan (binary_normalize F64.prec F64.emax m e sz) = false.
Proof.
  unfold binary_normalize, binary_round.
  destruct m as [|p|p]; [reflexivity| |];
    destruct (shl_align _ _ _) as [mz ez];
    apply binary_round_aux_not_nan; lia.
Qed.

Lemma div_finite_not_nan (s t : bool) (m n : positive) (e f : Z) :
  F64.is_nan (F64.div (S754_finite s m e) (S754_finite t n f)) = false.
Proof.
  unfold F64.div. cbn [SFdiv]. unfold SFdiv_core_binary.
  set (m' := match _ - _ - _ with
             | Z0 => Zpos m
             | Zpos _ => Z.shiftl (Zpos m) _
             | Zneg _ => 0
             end).
  assert (Hm : 0 <= m').
  { subst m'. destruct (_ - _ - _); [lia | | lia].
    apply Z.shiftl_nonneg. lia. }
  pose proof (Z.div_pos m' (Zpos n) Hm ltac:(lia)) as Hq.
  unfold Z.div in Hq.
  destruct (Z.div_eucl m' (Zpos n)) as [q r]. cbn [fst] in Hq.
  now apply binary_round_aux_not_nan.
Qed.

(** [float] of a decimal literal is never NaN. *)
Lemma of_decimal_not_nan (neg : bool) (m e10 : Z) :
  F64.is_nan (F64.of_decimal neg m e10) = false.
Proof.
  unfold F64.of_decimal. destruct m as [|p|p]; try reflexivity.
  destruct (0 <=? e10).
  - apply binary_normalize_not_nan.
  - apply div_finite_not_nan.
Qed.

Lemma of_Z_not_nan (n : Z) : F64.is_nan (F64.of_Z n) = false.
Proof. apply binary_normalize_not_nan. Qed.

(** ** The texts of [num_re] are literals *)

Lemma float_of_literal_body (text : string) :
  float_of_literal text =
  let '(neg, s1) := read_sign text in literal_body neg s1.
Proof. unfold float_of_literal. destruct (read_sign text). reflexivity. Qed.

Lemma read_digits_run (ds rest : string) (acc n : Z) :
  all_in is_digit ds = true -> stops rest ->
  exists acc', read_digits acc n (ds ++ rest)
               = (acc', n + Z.of_nat (String.length ds), rest).
Proof.
  revert acc n. induction ds as [|c t IH]; intros acc n Hd Hs.
  - exists acc. cbn [append String.length]. rewrite Z.add_0_r.
    destruct rest as [|c u]; [reflexivity|]. cbn in Hs |- *. now rewrite Hs.
  - cbn in Hd. apply andb_prop in Hd. destruct Hd as [Hc Ht].
    cbn [append read_digits]. rewrite Hc.
    destruct (IH (10 * acc + Z.of_nat (nat_of_ascii c - 48)) (n + 1) Ht Hs)
      as [acc' E].
    exists acc'. rewrite E. f_equal. f_equal. cbn [String.length]. lia.
Qed.

Lemma is_sign_cases (c : ascii) :
  is_sign c = true -> c = "+"%char \/ c = "-"%char.
Proof.
  unfold is_sign. intros H. apply orb_prop in H.
  destruct H as [H|H]; apply Ascii.eqb_eq in H; auto.
Qed.

Lemma read_sign_digit (c : ascii) (t : string) :
  is_digit c = true -> read_sign (String c t) = (false, String c t).
Proof.
  intros H. destruct (digit_is_plain c H) as [Hs _]. unfold is_sign in Hs.
  apply orb_false_elim in Hs. destruct Hs as [Hp Hm].
  cbn [read_sign]. now rewrite Hm, Hp.
Qed.

Lemma read_sign_sign (c : ascii) (t : string) :
  is_sign c = true -> exists neg, read_sign (String c t) = (neg, t).
Proof.
  intros H. destruct (is_sign_cases c H) as [-> | ->]; eexists; reflexivity.
Qed.

Lemma read_sign_plain (c : ascii) (t : string) :
  is_sign c = false -> read_sign (String c t) = (false, String c t).
Proof.
  unfold is_sign. intros H. apply orb_false_elim in H. destruct H as [Hp Hm].
  cbn [read_sign]. now rewrite Hm, Hp.
Qed.

Lemma exp_stops (s5 : string) : lang exp_group s5 -> stops s5.
Proof.
  intros H. inversion H as [| | r E | r s L E | |]; subst; [exact I|].
  inversion L as [| ra rb u1 u2 L1 L2 | | | |]; subst.
  inversion L1; subst. cbn.
  match goal with H : is_e ?c = true |- _ =>
    destruct (is_digit c) eqn:Ed; [|reflexivity];
    destruct (digit_is_plain c Ed) as [_ [_ He]]; congruence end.
Qed.

(** After the mantissa [m] with [nf] fraction digits, the exponent part
    makes [literal_body] return a number. *)
Lemma exponent_read (neg : bool) (m nf : Z) (s5 : string) :
  lang exp_group s5 ->
  exists x,
    match s5 with
    | EmptyString => Some (F64.of_decimal neg m (- nf))
    | String c t =>
        if is_e c then
          let '(eneg, s4) := read_sign t in
          let '(ex, ne, s6) := read_digits 0 0 s4 in
          match s6 with
          | EmptyString =>
              if ne =? 0 then None
              else Some (F64.of_decimal neg m ((if eneg then - ex else ex) - nf))
          | _ => None
          end
        else None
    end = Some x /\ F64.is_nan x = false.
Proof.
  intros H. inversion H as [| | r E | r s L E | |]; subst.
  - eexists. split; [reflexivity | apply of_decimal_not_nan].
  - inversion L as [| ra rb u1 u2 L1 L2 | | | |]; subst.
    inversion L1 as [p c Hc | | | | |]; subst.
    inversion L2 as [| rc rd u3 u4 L3 L4 | | | |]; subst.
    inversion L4 as [| | | | | p' d ds Hd Hds]; subst.
    cbn [append]. rewrite Hc.
    assert (Hrun : exists ex, read_digits 0 0 (String d ds)
                              = (ex, 0 + Z.of_nat (String.length (String d ds)), "")).
    { assert (A : all_in is_digit (String d ds) = true)
        by (cbn; now rewrite Hd, Hds).
      destruct (read_digits_run (String d ds) "" 0 0 A I) as [ex E''].
      rewrite append_empty_r in E''. now exists ex. }
    destruct Hrun as [ex Hex].
    assert (Hne : (0 + Z.of_nat (String.length (String d ds)) =? 0) = false)
      by (apply Z.eqb_neq; cbn [String.length]; lia).
    inversion L3 as [| | r E | r s L5 E | |]; subst.
    + cbn [append]. rewrite (read_sign_digit d ds Hd), Hex, Hne.
      eexists. split; [reflexivity | apply of_decimal_not_nan].
    + inversion L5 as [p c' Hc' | | | | |]; subst. cbn [append].
      destruct (read_sign_sign c' (String d ds) Hc') as [eneg ->].
      rewrite Hex, Hne.
      eexists. split; [reflexivity | apply of_decimal_not_nan].
Qed.

Lemma literal_body_reads (neg : bool) (s2 s3 s4 s5 : string) :
  all_in is_digit s2 = true ->
  lang (Re.Opt (Re.Cls is_dot)) s3 ->
  lang (Re.Plus is_digit) s4 ->
  lang exp_group s5 ->
  exists x, literal_body neg (s2 ++ s3 ++ s4 ++ s5) = Some x /\
            F64.is_nan x = false.
Proof.
  intros H2 H3 H4 H5.
  inversion H4 as [| | | | | p d ds Hd Hds]; subst.
  assert (A4 : all_in is_digit (String d ds) = true) by (cbn; now rewrite Hd, Hds).
  pose proof (exp_stops s5 H5) as Hs5.
  unfold literal_body.
  inversion H3 as [| | r E | r s L E | |]; subst.
  - (* no dot: the digits of both runs are the integer part *)
    change (s2 ++ "" ++ String d ds ++ s5) with (s2 ++ (String d ds ++ s5)).
    rewrite <- append_assoc.
    assert (A : all_in is_digit (s2 ++ String d ds) = true).
    { clear -H2 A4. induction s2 as [|c t IH]; [exact A4|].
      cbn in H2 |- *. apply andb_prop in H2. destruct H2 as [Hc Ht].
      now rewrite Hc, IH. }
    destruct (read_digits_run _ s5 0 0 A Hs5) as [ip ->].
    assert (Hn : (0 + Z.of_nat (String.length (s2 ++ String d ds)) + 0 =? 0) = false).
    { apply Z.eqb_neq. rewrite length_append. cbn [String.length]. lia. }
    assert (Hm : match s5 with
                 | String c t => if is_dot c then read_digits ip 0 t
                                 else (ip, 0, s5)
                 | EmptyString => (ip, 0, s5)
                 end = (ip, 0, s5)).
    { destruct s5 as [|c t]; [reflexivity|].
      destruct (is_dot c) eqn:Edot; [|reflexivity].
      exfalso. apply Ascii.eqb_eq in Edot. subst c.
      inversion H5 as [| | r' E' | r' u0 L' E' | |]; subst.
      inversion L' as [| ra rb u1 u2 L1 L2 E1 E2 | | | |]; subst.
      inversion L1 as [p1 c1 Hc1 E3 E4 | | | | |]; subst.
      cbn [append] in E2. injection E2 as E2 _. subst c1. discriminate Hc1. }
    rewrite Hm, Hn.
    destruct (exponent_read neg ip 0 s5 H5) as [x [Ex Hx]].
    exists x. split; [exact Ex | exact Hx].
  - (* a dot between the integer part and the fraction *)
    inversion L as [p' c Hc | | | | |]; subst.
    apply Ascii.eqb_eq in Hc. subst c.
    change (s2 ++ String "." "" ++ String d ds ++ s5)
      with (s2 ++ String "." (String d ds ++ s5)).
    assert (Hst : stops (String "." (String d ds ++ s5))) by reflexivity.
    destruct (read_digits_run s2 _ 0 0 H2 Hst) as [ip ->].
    change (is_dot ".") with true. cbv iota.
    destruct (read_digits_run _ s5 ip 0 A4 Hs5) as [m Em].
    rewrite Em.
    assert (Hn : (0 + Z.of_nat (String.length s2)
                  + (0 + Z.of_nat (String.length (String d ds))) =? 0) = false)
      by (apply Z.eqb_neq; cbn [String.length]; lia).
    rewrite Hn.
    destruct (exponent_read neg m (0 + Z.of_nat (String.length (String d ds)))
                s5 H5) as [x [Ex Hx]].
    exists x. split; [exact Ex | exact Hx].
Qed.

(** Every text in the language of [num_re] is a literal [float] reads,
    and the float is a number. *)
Lemma lang_num_re_literal (m : string) :
  lang num_re m ->
  exists x, float_of_literal m = Some x /\ F64.is_nan x = false.
Proof.
  unfold num_re. intros H.
  inversion H as [| ra1 rb1 s1 t1 L1 R1 | | | |]; subst.
  inversion R1 as [| ra2 rb2 s2 t2 L2 R2 | | | |]; subst.
  inversion R2 as [| ra3 rb3 s3 t3 L3 R3 | | | |]; subst.
  inversion R3 as [| ra4 rb4 s4 s5 L4 L5 | | | |]; subst.
  inversion L2 as [| | | | p0 s0 A2 |]; subst.
  rewrite float_of_literal_body.
  inversion L1 as [| | r E | r s L E | |]; subst.
  - cbn [append].
    assert (Hs : read_sign (s2 ++ s3 ++ s4 ++ s5)
                 = (false, s2 ++ s3 ++ s4 ++ s5)).
    { inversion L4 as [| | | | | p1 d ds Hd Hds]; subst.
      destruct s2 as [|c t].
      - inversion L3 as [| | r' E' | r' u0 L' E' | |]; subst.
        + now apply read_sign_digit.
        + inversion L' as [p2 c Hc | | | | |]; subst.
          apply Ascii.eqb_eq in Hc. subst c. reflexivity.
      - cbn in A2. apply andb_prop in A2. destruct A2 as [Hc _].
        cbn [append]. now apply read_sign_digit. }
    rewrite Hs. now apply literal_body_reads.
  - inversion L as [p3 c Hc | | | | |]; subst. cbn [append].
    destruct (read_sign_sign c (s2 ++ s3 ++ s4 ++ s5) Hc) as [neg ->].
    now apply literal_body_reads.
Qed.

(** ** The matcher finds the first number *)

(** The backtracking matcher finds a match whenever the language has
    one: if [m] is in the language of [r] and the rest of the pattern
    accepts what follows, [run] succeeds. *)
Lemma star_complete (p : ascii -> bool) (m rest : string)
      (k : string -> option string) :
  all_in p m = true -> k rest <> None -> Re.star p (m ++ rest) k <> None.
Proof.
  induction m as [|c t IH]; intros Hm Hk.
  - cbn [append]. destruct rest as [|c u]; [exact Hk|].
    cbn [Re.star]. destruct (p c); [|exact Hk].
    destruct (Re.star p u k); [discriminate | exact Hk].
  - cbn in Hm. apply andb_prop in Hm. destruct Hm as [Hc Ht].
    cbn [append Re.star]. rewrite Hc.
    specialize (IH Ht Hk).
    destruct (Re.star p (t ++ rest) k); [discriminate | contradiction].
Qed.

Lemma run_complete (r : Re.re) (m : string) :
  lang r m ->
  forall rest k, k rest <> None -> Re.run r (m ++ rest) k <> None.
Proof.
  induction 1 as [p c Hc | r1 r2 s1 s2 L1 IH1 L2 IH2 | r | r s L IH
                 | p s Hs | p c s Hc Hs]; intros rest k Hk.
  - cbn [append Re.run]. now rewrite Hc.
  - cbn [Re.run]. rewrite append_assoc. apply IH1. now apply IH2.
  - cbn [append Re.run]. destruct (Re.run r rest k); [discriminate | exact Hk].
  - cbn [Re.run]. specialize (IH rest k Hk).
    destruct (Re.run r (s ++ rest) k); [discriminate | contradiction].
  - cbn [Re.run]. now apply star_complete.
  - cbn [append Re.run]. rewrite Hc. now apply star_complete.
Qed.

(** One digit is a number of the pattern. *)
Lemma lang_digit (c : ascii) : is_digit c = true -> lang num_re (String c "").
Proof.
  intros Hc. unfold num_re.
  change (String c "") with ("" ++ "" ++ "" ++ String c "" ++ "").
  repeat (apply lang_cat);
    [apply lang_opt_skip | now apply lang_star | apply lang_opt_skip
    | now apply lang_plus | apply lang_opt_skip].
Qed.

Lemma search_digit (s : string) :
  no_digit s = false -> Re.search num_re s <> None.
Proof.
  induction s as [|c t IH]; intros H; [discriminate|].
  cbn [Re.search]. unfold Re.match_at.
  destruct (Re.run num_re (String c t) (fun rest => Some rest)) eqn:E;
    [discriminate|].
  cbn [no_digit] in H. destruct (is_digit c) eqn:Ec.
  - exfalso.
    apply (run_complete num_re (String c "") (lang_digit c Ec) t
             (fun rest => Some rest)); [discriminate | exact E].
  - cbn [negb andb] in H. now apply IH.
Qed.

Lemma match_at_digit (c : ascii) (t : string) :
  is_digit c = true -> Re.match_at num_re (String c t) <> None.
Proof.
  intros Ec. unfold Re.match_at.
  destruct (Re.run num_re (String c t) (fun rest => Some rest)) eqn:E;
    [discriminate|].
  exfalso.
  apply (run_complete num_re (String c "") (lang_digit c Ec) t
           (fun rest => Some rest)); [discriminate | exact E].
Qed.

(** The match of [search] is the first number of the text: no digit
    stands before it. *)
Lemma search_first (s m : string) :
  Re.search num_re s = Some m ->
  exists before rest, s = before ++ m ++ rest /\ no_digit before = true.
Proof.
  induction s as [|c t IH]; cbn [Re.search].
  - destruct (Re.match_at num_re "") as [m'|] eqn:E; [|discriminate].
    intros H. inversion H; subst m'.
    destruct (match_at_sound _ _ _ E) as [_ [rest Hr]].
    exists "", rest. now split.
  - destruct (Re.match_at num_re (String c t)) as [m'|] eqn:E.
    + intros H. inversion H; subst m'.
      destruct (match_at_sound _ _ _ E) as [_ [rest Hr]].
      exists "", rest. now split.
    + intros H. destruct (IH H) as [before [rest [-> Hb]]].
      exists (String c before), rest. split; [reflexivity|].
      cbn [no_digit]. rewrite Hb.
      destruct (is_digit c) eqn:Ec; [|reflexivity].
      now destruct (match_at_digit c (before ++ m ++ rest) Ec).
Qed.

(** X6. What [num_re.search] finds in a text is a contiguous part of the
    text with no digit before it, and [float] reads it as a number: the
    call [float(m.group(0))] of [extract_number] never raises and never
    gives NaN. The search finds nothing only in a text without a digit. *)
Theorem search_num_re (s : string) :
  match Re.search num_re s with
  | Some m =>
      (exists before rest, s = before ++ m ++ rest /\ no_digit before = true) /\
      (exists x, float_of_literal m = Some x /\ F64.is_nan x = false)
  | None => no_digit s = true
  end.
Proof.
  destruct (Re.search num_re s) as [m|] eqn:E.
  - split; [now apply search_first|].
    apply lang_num_re_literal. now destruct (search_sound num_re s m E).
  - destruct (no_digit s) eqn:N; [reflexivity|].
    now destruct (search_digit s N).
Qed.

(** X7. [extract_number] reads a text as the missing value exactly when
    the text holds no digit. *)
Theorem extract_number_missing_iff (text : string) :
  F64.is_nan (extract_number (VStr text)) = no_digit text.
Proof.
  unfold extract_number. cbn [isna py_str].
  destruct (Re.search num_re text) as [m|] eqn:E.
  - destruct (search_sound num_re text m E) as [L _].
    destruct (lang_num_re_literal m L) as [x [-> Hx]]. rewrite Hx.
    destruct (no_digit text) eqn:N; [|reflexivity].
    rewrite (search_no_digit text N) in E. discriminate.
  - destruct (no_digit text) eqn:N; [reflexivity|].
    now destruct (search_digit text N).
Qed.

(** ** The traces of [main] *)

(** X8. No run prints the line on the skipped scaling plot: [detailed]
    is set only for a table with a Runtime_ms column, so the test
    ['Runtime_ms' not in detailed.columns] of [main] never holds. *)
Theorem skipping_scaling_never_printed (a : args) (w : world) :
  existsb (fun e => match e with Print SkippingScaling => true | _ => false end)
          (fst (run a w)) = false.
Proof.
  rewrite run_unfold.
  destruct (csv_path_of a w) as [p|]; [|reflexivity].
  destruct (read_csv w p) as [e|df0]; [reflexivity|].
  destruct (clean_numeric_columns (canonicalize_columns df0)) as [e|df];
    [reflexivity|].
  destruct (has_column "Method" df); [|reflexivity].
  destruct (aggregation a df) as [e|s]; [reflexivity|].
  destruct (mapM (summary_row a s) (rows s)) as [e|rws]; [reflexivity|].
  cbv zeta.
  destruct (has_column "InputLength" df && has_column "Runtime_ms" df);
    [|reflexivity].
  destruct (getitem df "Method") as [|j ms|]; try reflexivity.
  destruct (forallb is_text ms); reflexivity.
Qed.


(** ** The order of the group keys *)

Lemma ascii_compare_lt_trans (a b c : ascii) :
  Ascii.compare a b = Lt -> Ascii.compare b c = Lt -> Ascii.compare a c = Lt.
Proof.
  unfold Ascii.compare. rewrite !N.compare_lt_iff. lia.
Qed.

Lemma string_compare_lt_trans (s t u : string) :
  String.compare s t = Lt -> String.compare t u = Lt -> String.compare s u = Lt.
Proof.
  revert t u. induction s as [|a s IH]; intros [|b t] [|c u]; cbn;
    try discriminate; try reflexivity.
  destruct (Ascii.compare a b) eqn:Eab; try discriminate;
    destruct (Ascii.compare b c) eqn:Ebc; try discriminate; intros H1 H2.
  - apply Ascii.compare_eq_iff in Eab, Ebc. subst.
    assert (E : Ascii.compare c c = Eq) by (unfold Ascii.compare; apply N.compare_refl).
    rewrite E. now apply (IH t u).
  - apply Ascii.compare_eq_iff in Eab. subst. now rewrite Ebc.
  - apply Ascii.compare_eq_iff in Ebc. subst. now rewrite Eab.
  - now rewrite (ascii_compare_lt_trans a b c Eab Ebc).
Qed.

Lemma string_ltb_trans (s t u : string) :
  String.ltb s t = true -> String.ltb t u = true -> String.ltb s u = true.
Proof.
  unfold String.ltb. intros H1 H2.
  destruct (String.compare s t) eqn:E1; try discriminate.
  destruct (String.compare t u) eqn:E2; try discriminate.
  now rewrite (string_compare_lt_trans s t u E1 E2).
Qed.

Lemma string_compare_refl (s : string) : String.compare s s = Eq.
Proof.
  induction s as [|a s IH]; [reflexivity|]. cbn.
  assert (E : Ascii.compare a a = Eq) by (unfold Ascii.compare; apply N.compare_refl).
  now rewrite E.
Qed.

Ltac order_cases :=
  repeat match goal with
         | |- context [Z.compare ?a ?b] =>
             destruct (Z.compare_spec a b); subst
         | |- context [Pos.compare ?a ?b] =>
             destruct (Pos.compare_spec a b); subst
         | H : context [Z.compare ?a ?b] |- _ =>
             destruct (Z.compare_spec a b); subst
         | H : context [Pos.compare ?a ?b] |- _ =>
             destruct (Pos.compare_spec a b); subst
         end;
  cbn in *; try discriminate; try reflexivity; try lia.

Lemma SFltb_trans (x y z : F64.float) :
  F64.ltb x y = true -> F64.ltb y z = true -> F64.ltb x z = true.
Proof.
  unfold F64.ltb, SFltb.
  destruct x as [s1| s1| |s1 m1 e1], y as [s2| s2| |s2 m2 e2],
           z as [s3| s3| |s3 m3 e3];
    cbn; try discriminate; try (intros _ _; reflexivity);
    try (destruct s1; cbn; try discriminate);
    try (destruct s2; cbn; try discriminate);
    try (destruct s3; cbn; try discriminate);
    try (intros; reflexivity); try (intros; assumption).
  all: change (Pos.compare_cont Eq) with Pos.compare.
  all: intros H1 H2; order_cases.
Qed.

Lemma key_ltb_trans (a b c : value) :
  key_ltb a b = true -> key_ltb b c = true -> key_ltb a c = true.
Proof.
  destruct a as [s|x|m], b as [t|y|n], c as [u|z|p]; cbn;
    try discriminate; try reflexivity.
  - apply string_ltb_trans.
  - apply SFltb_trans.
  - rewrite !Z.ltb_lt. lia.
Qed.

(** Two keys that are not missing are equal or one is below the other. *)
Lemma key_total (a b : value) :
  isna a = false -> isna b = false ->
  key_eqb a b = false -> key_ltb a b = false -> key_ltb b a = true.
Proof.
  destruct a as [s|x|m], b as [t|y|n]; cbn; try discriminate; try reflexivity.
  - intros _ _. unfold String.ltb. rewrite (String.compare_antisym t s).
    destruct (String.compare s t) eqn:E; cbn; try discriminate; try reflexivity.
    apply String.compare_eq_iff in E. subst. now rewrite String.eqb_refl.
  - unfold F64.ltb, SFltb, SFeqb. rewrite (SFcompare_antisym x y).
    intros Hx Hy.
    destruct (SFcompare x y) as [[ | | ]|] eqn:E; cbn; try discriminate;
      try reflexivity.
    destruct x, y; cbn in *; discriminate.
  - intros _ _. rewrite Z.eqb_neq, Z.ltb_ge, Z.ltb_lt. lia.
Qed.

(** A key below another is not equal to it. *)
Lemma key_ltb_neq (a b : value) : key_ltb a b = true -> key_eqb a b = false.
Proof.
  destruct a as [s|x|m], b as [t|y|n]; cbn; try discriminate; try reflexivity.
  - unfold String.ltb. intros H. apply String.eqb_neq. intros ->.
    now rewrite string_compare_refl in H.
  - unfold F64.ltb, SFltb, SFeqb.
    destruct (SFcompare x y) as [[ | | ]|]; congruence.
  - rewrite Z.ltb_lt, Z.eqb_neq. lia.
Qed.

Lemma key_eqb_sym (a b : value) : key_eqb a b = key_eqb b a.
Proof.
  destruct a as [s|x|m], b as [t|y|n]; cbn; try reflexivity.
  - apply String.eqb_sym.
  - unfold SFeqb. rewrite (SFcompare_antisym y x).
    destruct (SFcompare y x) as [[ | | ]|]; reflexivity.
  - apply Z.eqb_sym.
Qed.

(** ** The keys of the groups *)

Lemma insert_key_In (k x : value) (ks : list value) :
  In x (insert_key k ks) -> x = k \/ In x ks.
Proof.
  induction ks as [|h t IH]; cbn.
  - intros [<-|[]]. now left.
  - destruct (key_eqb k h); [now right|].
    destruct (key_ltb k h).
    + intros [<-|H]; [now left | now right].
    + intros [<-|H]; [right; now left|].
      destruct (IH H) as [->|Ht]; [now left | right; now right].
Qed.

Lemma insert_key_sorted (k : value) (ks : list value) :
  isna k = false -> Forall (fun x => isna x = false) ks ->
  StronglySorted key_lt ks -> StronglySorted key_lt (insert_key k ks).
Proof.
  intros Hk Hn Hs. induction Hs as [|h t Hs IH Hh]; cbn.
  - repeat constructor.
  - inversion Hn as [|? ? Hnh Hnt]; subst.
    destruct (key_eqb k h) eqn:Ee; [now constructor|].
    destruct (key_ltb k h) eqn:El.
    + constructor; [now constructor|].
      constructor; [exact El|].
      rewrite Forall_forall in Hh |- *. intros x Hx.
      exact (key_ltb_trans k h x El (Hh x Hx)).
    + constructor; [now apply IH|].
      rewrite Forall_forall in Hh |- *. intros x Hx.
      destruct (insert_key_In k x t Hx) as [->|Ht]; [|now apply Hh].
      now apply key_total.
Qed.

Lemma SFcompare_refl (x : F64.float) :
  F64.is_nan x = false -> SFcompare x x = Some Eq.
Proof.
  destruct x as [s|s| |s m e]; cbn; try discriminate; intros _.
  - reflexivity.
  - now destruct s.
  - rewrite Z.compare_refl.
    change (Pos.compare_cont Eq m m) with (Pos.compare m m).
    rewrite Pos.compare_refl. now destruct s.
Qed.

Lemma key_eqb_refl (k : value) : isna k = false -> key_eqb k k = true.
Proof.
  destruct k as [s|x|n]; cbn.
  - intros _. apply String.eqb_refl.
  - intros H. unfold SFeqb. now rewrite (SFcompare_refl x H).
  - intros _. apply Z.eqb_refl.
Qed.

Lemma insert_key_keeps (k x : value) (ks : list value) :
  In x ks -> In x (insert_key k ks).
Proof.
  induction ks as [|h t IH]; cbn; [intros []|].
  destruct (key_eqb k h); [auto|].
  destruct (key_ltb k h); cbn; intuition.
Qed.

Lemma insert_key_has (k : value) (ks : list value) :
  isna k = false -> exists x, In x (insert_key k ks) /\ key_eqb k x = true.
Proof.
  intros Hk. induction ks as [|h t IH]; cbn.
  - exists k. split; [now left | now apply key_eqb_refl].
  - destruct (key_eqb k h) eqn:E; [exists h; split; [now left | exact E]|].
    destruct (key_ltb k h).
    + exists k. split; [now left | now apply key_eqb_refl].
    + destruct IH as [x [Hx Ex]]. exists x. split; [now right | exact Ex].
Qed.

Lemma keys_from_sorted (cells acc : list value) :
  Forall (fun x => isna x = false) acc -> StronglySorted key_lt acc ->
  Forall (fun x => isna x = false) (keys_from acc cells) /\
  StronglySorted key_lt (keys_from acc cells).
Proof.
  revert acc. induction cells as [|c t IH]; intros acc Hn Hs; [now split|].
  cbn. destruct (isna c) eqn:Ec; [now apply IH|].
  apply IH.
  - rewrite Forall_forall in Hn |- *. intros x Hx.
    destruct (insert_key_In c x acc Hx) as [->|H]; [exact Ec | now apply Hn].
  - now apply insert_key_sorted.
Qed.

Lemma keys_from_sound (cells acc : list value) (x : value) :
  In x (keys_from acc cells) -> In x acc \/ In x cells.
Proof.
  revert acc. induction cells as [|c t IH]; intros acc H; [now left|].
  cbn in H. destruct (isna c).
  - destruct (IH acc H); [now left | right; now right].
  - destruct (IH _ H) as [H1|H1]; [|right; now right].
    destruct (insert_key_In c x acc H1) as [->|H2]; [right; now left | now left].
Qed.

Lemma keys_from_keeps (cells acc : list value) (x : value) :
  In x acc -> In x (keys_from acc cells).
Proof.
  revert acc. induction cells as [|c t IH]; intros acc H; [exact H|].
  cbn. destruct (isna c); apply IH; [exact H | now apply insert_key_keeps].
Qed.

Lemma keys_from_complete (cells acc : list value) (v : value) :
  In v cells -> isna v = false ->
  exists k, In k (keys_from acc cells) /\ key_eqb v k = true.
Proof.
  revert acc. induction cells as [|c t IH]; intros acc; [intros []|].
  intros [<-|H] Hv.
  - cbn. rewrite Hv.
    destruct (insert_key_has c acc Hv) as [x [Hx Ex]].
    exists x. split; [now apply keys_from_keeps | exact Ex].
  - cbn. destruct (isna c); now apply IH.
Qed.

(** What [group_keys] returns: the keys in strictly ascending order,
    each of them a cell that is not missing, one for every such cell. *)
Lemma group_keys_spec (cells : list value) :
  StronglySorted key_lt (group_keys cells) /\
  Forall (fun k => isna k = false /\ In k cells) (group_keys cells) /\
  (forall v, In v cells -> isna v = false ->
             exists k, In k (group_keys cells) /\ key_eqb v k = true).
Proof.
  change (group_keys cells) with (keys_from [] cells).
  destruct (keys_from_sorted cells [] (Forall_nil _) (SSorted_nil _)) as [Hn Hs].
  split; [exact Hs|]. split.
  - rewrite Forall_forall in Hn |- *. intros k Hk. split; [now apply Hn|].
    destruct (keys_from_sound cells [] k Hk) as [[]|H]; exact H.
  - intros v. apply keys_from_complete.
Qed.

(** ** The Method column of the summary *)

Lemma groupby_agg_keys (df s0 : DataFrame) (key : string)
      (spec : list (string * how)) :
  groupby_agg df key spec = inr s0 ->
  exists jm keys,
    getitem df key = Series jm keys /\
    map (cell 0) (rows s0) = group_keys keys.
Proof.
  unfold groupby_agg.
  destruct (getitem df key) as [|jm keys|]; try discriminate.
  destruct (forallb _ spec); [|discriminate].
  unfold rbind at 1.
  destruct (mapM _ spec) as [e|js]; [discriminate|].
  unfold rbind at 1.
  match goal with |- context [mapM ?f (group_keys keys)] =>
    destruct (mapM f (group_keys keys)) as [e|rs] eqn:Em end;
    [discriminate|].
  intros H. inversion H; subst s0; clear H. exists jm, keys.
  split; [reflexivity|]. cbn [rows].
  apply mapM_Forall2 in Em.
  induction Em as [|k r ks rs Hk _ IH]; [reflexivity|].
  cbn [map]. rewrite IH. f_equal.
  unfold rbind in Hk.
  destruct (mapM _ js) as [e|vs]; [discriminate|].
  inversion Hk. reflexivity.
Qed.

Lemma aggregation_first_cells (a : args) (df s : DataFrame) :
  aggregation a df = inr s ->
  exists s0,
    groupby_agg df "Method" (agg_spec df) = inr s0 /\
    map (cell 0) (rows s) = map (cell 0) (rows s0).
Proof.
  unfold aggregation. unfold rbind at 1.
  destruct (groupby_agg df "Method" (agg_spec df)) as [e|s0] eqn:Eg;
    [discriminate|].
  intros H. exists s0. split; [reflexivity|]. revert H.
  apply groupby_agg_shape in Eg. destruct Eg as [Hc Hr].
  destruct s0 as [cs rs]. cbn [columns rows] in Hc, Hr |- *. subst cs.
  rewrite ensure_id.
  unfold fill_samples, getitem. compute_labels.
  cbn [rbind ok]. unfold map_column. cbn [columns rows].
  unfold assign_rowwise. cbn [rows columns].
  match goal with |- context [map ?f rs] => set (fill := f) end.
  destruct (map fill rs) as [|r0 rs2] eqn:E2; [discriminate|].
  compute_labels. cbv iota. rewrite <- E2. clear E2 r0 rs2.
  match goal with |- context [mapM ?f (map fill rs)] =>
    destruct (mapM f (map fill rs)) as [e|rs3] eqn:Em end; [discriminate|].
  cbn [rbind ok]. intros H. inversion H; subst s; clear H. cbn [rows].
  apply mapM_Forall2 in Em. revert rs3 Em.
  induction Hr as [|r rs Hrow _ IH]; intros rs3 Em; inversion Em; subst;
    [reflexivity|].
  cbn [map]. f_equal; [|now apply IH].
  destruct Hrow as [k [m [sd [fb [ac [mx ->]]]]]].
  match goal with H : rbind _ _ = inr _ |- _ => revert H end.
  unfold rbind at 1. destruct (ci95_lambda _ _) as [e|v']; [discriminate|].
  intros H. inversion H. reflexivity.
Qed.

(** X10. The summary has one row for every method of the table: its
    Method cells are in strictly ascending order (hence pairwise
    distinct), each of them is a Method cell of the table that is not
    missing, and every such cell of the table has its row. *)
Theorem summary_methods (a : args) (df s : DataFrame) :
  aggregation a df = inr s ->
  exists jm methods,
    getitem df "Method" = Series jm methods /\
    StronglySorted key_lt (map (cell 0) (rows s)) /\
    Forall (fun k => isna k = false /\ In k methods) (map (cell 0) (rows s)) /\
    (forall v, In v methods -> isna v = false ->
               exists k, In k (map (cell 0) (rows s)) /\ key_eqb v k = true).
Proof.
  intros H. destruct (aggregation_first_cells a df s H) as [s0 [Hg ->]].
  destruct (groupby_agg_keys df s0 "Method" _ Hg) as [jm [keys [Hm ->]]].
  exists jm, keys. split; [exact Hm|]. apply group_keys_spec.
Qed.

(** ** Tables without a method, and the rendered methods *)

Lemma keys_from_all_missing (cells acc : list value) :
  forallb isna cells = true -> keys_from acc cells = acc.
Proof.
  revert acc. induction cells as [|c t IH]; intros acc H; [reflexivity|].
  cbn in H |- *. apply andb_prop in H. destruct H as [Hc Ht].
  rewrite Hc. now apply IH.
Qed.

Lemma map_nil_inv {A B} (f : A -> B) (l : list A) : map f l = [] -> l = [].
Proof. destruct l; [reflexivity | discriminate]. Qed.

(** X11. A table in which no row names a method (a table without rows,
    or with missing Method cells only) has no summary: the aggregation
    stage raises. *)
Theorem aggregation_needs_a_method (a : args) (df : DataFrame) (jm : nat)
        (methods : list value) :
  getitem df "Method" = Series jm methods ->
  forallb isna methods = true ->
  exists e, aggregation a df = inl e.
Proof.
  intros Hm Hna. destruct (aggregation a df) as [e|s] eqn:E; [now exists e|].
  exfalso.
  destruct (aggregation_shape a df s E) as [_ [_ Hrows]].
  destruct (aggregation_first_cells a df s E) as [s0 [Hg Hc]].
  destruct (groupby_agg_keys df s0 "Method" _ Hg) as [jm' [keys [Hm' Hk]]].
  rewrite Hm in Hm'. inversion Hm'; subst jm' keys.
  rewrite Hk in Hc. change (group_keys methods) with (keys_from [] methods) in Hc.
  rewrite (keys_from_all_missing methods [] Hna) in Hc.
  now apply map_nil_inv in Hc.
Qed.

(** X11 (witness): a table with a header line only. *)
Lemma aggregation_needs_a_method_witness :
  exists e, aggregation default_args header_only = inl e.
Proof.
  apply (aggregation_needs_a_method default_args header_only 0 []);
    reflexivity.
Defined.

(** X12. The rows handed to the LaTeX table carry the methods of the
    summary CSV of the same run, each of them once: the sort drops and
    repeats no row. *)
Theorem rendered_methods (a : args) (w : world) (rws : list Row.t) :
  In (tex_out rws) (files_written (fst (run a w))) ->
  exists s,
    In (cleaned_csv s) (files_written (fst (run a w))) /\
    Permutation (map (cell 0) (rows s)) (map Row.Method rws).
Proof.
  intros H.
  destruct (written_rows a w rws (or_intror (or_intror H)))
    as [df [s [rows0 [Hagg [Hm [-> Hc]]]]]].
  exists s. split; [exact Hc|].
  rewrite <- (py_sorted_Permutation by_mean rows0).
  destruct (aggregation_shape a df s Hagg) as [Hcols [Hr _]].
  destruct s as [cs rs]. cbn [columns rows] in *. subst cs.
  apply mapM_Forall2 in Hm.
  assert (E : map (cell 0) rs = map Row.Method rows0).
  { clear Hc Hagg H. revert Hr.
    induction Hm as [|r row rs' rows' Hrow _ IH]; intros Hr; [reflexivity|].
    inversion Hr as [|? ? Hs Hr']; subst. cbn [map].
    f_equal; [|now apply IH].
    destruct (summary_row_shape a _ r row Hs Hrow)
      as [k [m [sd [fb [ac [mx [n [ci [-> [_ [_ ->]]]]]]]]]]].
    reflexivity. }
  rewrite E. apply Permutation_refl.
Qed.

(** X12 (witness): the run on [benchmark]. *)
Lemma rendered_methods_witness :
  exists s,
    In (cleaned_csv s) (files_written (fst (run with_csv (given benchmark)))) /\
    Permutation (map (cell 0) (rows s)) (map Row.Method benchmark_rendered).
Proof.
  apply (rendered_methods with_csv (given benchmark) benchmark_rendered).
  vm_compute. do 3 right. left. reflexivity.
Defined.

(** X10 (witness): the summary of [benchmark] lists DFA, Hybrid, Regex. *)
Lemma summary_methods_witness :
  exists jm methods,
    getitem benchmark_cleaned "Method" = Series jm methods /\
    StronglySorted key_lt (map (cell 0) (rows benchmark_summary)) /\
    Forall (fun k => isna k = false /\ In k methods)
           (map (cell 0) (rows benchmark_summary)) /\
    (forall v, In v methods -> isna v = false ->
               exists k, In k (map (cell 0) (rows benchmark_summary)) /\
                         key_eqb v k = true).
Proof.
  apply (summary_methods with_csv benchmark_cleaned benchmark_summary).
  vm_compute. reflexivity.
Defined.

(** ** Tables the aggregation accepts *)















(** ** Runs that return *)



